(** * slabtop: the refresh/interaction loop of [slabtop.c]

    A shallow embedding of [slabtop.c] of procps.  The program is a
    single C file: a handful of globals, two signal
    handlers, a pure key-to-field function, three printing routines and
    [main], whose [do ... while (Delay)] loop alternates fetch, sort,
    render and a bounded wait for one keystroke.

    Everything the program asks of the outside (the slab collector,
    curses, the terminal, [select]/[read], signal delivery) is an
    [input] answered by the environment; everything it does to the
    outside is an [event] appended to a trace. *)

From Stdlib Require Import ZArith List Bool String Ascii Lia.
From Stdlib Require Import PrimFloat FloatOps FloatAxioms SpecFloat Uint63.
Import ListNotations.
Open Scope Z_scope.

(** ** C scalars *)

(** A [char] is held as the [int] it promotes to (signed, 8 bits). *)
Definition chr (a : ascii) : Z :=
  let n := Z.of_N (N_of_ascii a) in
  if 128 <=? n then n - 256 else n.

Definition EXIT_SUCCESS : Z := 0.
Definition EXIT_FAILURE : Z := 1.

(** [tolower] and [toupper] of <ctype.h>.  Only the twenty-six ASCII
    letters move; no locale maps another byte onto an ASCII letter. *)
Definition tolower (c : Z) : Z :=
  if (65 <=? c) && (c <=? 90) then c + 32 else c.

Definition toupper (c : Z) : Z :=
  if (97 <=? c) && (c <=? 122) then c - 32 else c.

(** ** The sortable fields (enum slabnode_item of <proc/slab.h>, as far
    as [Node_items] names them) *)

Inductive slabnode_item : Set :=
| PROCPS_SLABNODE_OBJS
| PROCPS_SLABNODE_AOBJS
| PROCPS_SLABNODE_USE
| PROCPS_SLABNODE_OBJ_SIZE
| PROCPS_SLABNODE_SLABS
| PROCPS_SLABNODE_OBJS_PER_SLAB
| PROCPS_SLABNODE_SIZE
| PROCPS_SLABNODE_NAME
| PROCPS_SLABNODE_PAGES_PER_SLAB
| PROCPS_SLABNODE_ASLABS.

Definition DEFAULT_SORT : slabnode_item := PROCPS_SLABNODE_OBJS.
Definition CHAINS_ALLOC : Z := 150.

Definition Node_items : list slabnode_item :=
  [ PROCPS_SLABNODE_OBJS; PROCPS_SLABNODE_AOBJS; PROCPS_SLABNODE_USE;
    PROCPS_SLABNODE_OBJ_SIZE; PROCPS_SLABNODE_SLABS;
    PROCPS_SLABNODE_OBJS_PER_SLAB; PROCPS_SLABNODE_SIZE;
    PROCPS_SLABNODE_NAME;
    PROCPS_SLABNODE_PAGES_PER_SLAB; PROCPS_SLABNODE_ASLABS ].

Definition MAX_ITEMS : Z := Z.of_nat (List.length Node_items).

(** ** set_sort_item (lines 130-157) *)

Definition set_sort_item (key : Z) : slabnode_item :=
  let k := tolower key in
  if k =? chr "n" then PROCPS_SLABNODE_NAME
  else if k =? chr "o" then PROCPS_SLABNODE_OBJS
  else if k =? chr "a" then PROCPS_SLABNODE_AOBJS
  else if k =? chr "s" then PROCPS_SLABNODE_OBJ_SIZE
  else if k =? chr "b" then PROCPS_SLABNODE_OBJS_PER_SLAB
  else if k =? chr "p" then PROCPS_SLABNODE_PAGES_PER_SLAB
  else if k =? chr "l" then PROCPS_SLABNODE_SLABS
  else if k =? chr "v" then PROCPS_SLABNODE_ASLABS
  else if k =? chr "c" then PROCPS_SLABNODE_SIZE
  else if k =? chr "u" then PROCPS_SLABNODE_USE
  else DEFAULT_SORT.

(** The sort criteria that [usage] (lines 110-120) announces as valid,
    in the order it prints them. *)
Definition valid_sort_criteria : list Z :=
  map chr ["a"; "b"; "c"; "l"; "v"; "n"; "o"; "p"; "s"; "u"]%char.

(** What [usage] says each of them sorts by. *)
Definition usage_criteria : list (Z * slabnode_item) :=
  [ (chr "a", PROCPS_SLABNODE_AOBJS);          (* number of active objects *)
    (chr "b", PROCPS_SLABNODE_OBJS_PER_SLAB);  (* objects per slab *)
    (chr "c", PROCPS_SLABNODE_SIZE);           (* cache size *)
    (chr "l", PROCPS_SLABNODE_SLABS);          (* number of slabs *)
    (chr "v", PROCPS_SLABNODE_ASLABS);         (* number of active slabs *)
    (chr "n", PROCPS_SLABNODE_NAME);           (* name *)
    (chr "o", PROCPS_SLABNODE_OBJS);           (* number of objects *)
    (chr "p", PROCPS_SLABNODE_PAGES_PER_SLAB); (* pages per slab *)
    (chr "s", PROCPS_SLABNODE_OBJ_SIZE);       (* object size *)
    (chr "u", PROCPS_SLABNODE_USE) ].          (* cache utilization *)

(** A character is a recognized sort key when it is one of the announced
    letters, in either case. *)
Definition recognized (c : Z) : bool :=
  existsb (Z.eqb c) (valid_sort_criteria ++ map toupper valid_sort_criteria).

(** ** Terminal geometry: term_resize (lines 80-91) *)

Record winsize : Set := { ws_row : Z; ws_col : Z }.

(** What [ioctl(STDOUT_FILENO, TIOCGWINSZ, &ws)] answered: its return
    value and the structure it left in [ws]. *)
Record ioctl_result : Set := { io_rc : Z; io_ws : winsize }.

Record geometry : Set := { Cols : Z; Rows : Z }.

Definition term_resize (q : ioctl_result) : geometry :=
  if negb (io_rc q =? -1) && (10 <? ws_row (io_ws q))
  then {| Cols := ws_col (io_ws q); Rows := ws_row (io_ws q) |}
  else {| Cols := 80; Rows := 24 |}.

(** ** Doubles *)

(** Conversion of an [int] to [double]; exact, an [int] has 32 bits. *)
Definition of_int (z : Z) : float :=
  if z <? 0 then PrimFloat.opp (PrimFloat.of_uint63 (Uint63.of_Z (- z)))
  else PrimFloat.of_uint63 (Uint63.of_Z z).

(** [100.0 * a / t] as C evaluates it: both [int]s are converted, the
    product is taken first. *)
Definition percent (a t : Z) : float :=
  PrimFloat.div (PrimFloat.mul 100%float (of_int a)) (of_int t).

Definition kib (a : Z) : float := PrimFloat.div (of_int a) 1024%float.

(** Conversion of an [unsigned] to [double]. *)
Definition of_unsigned (n : Z) : float := PrimFloat.of_uint63 (Uint63.of_Z n).

(** ** What the program prints *)

(** [PRINT_line] (line 74) sends a format and its arguments to [printf]
    in one-shot mode and to [printw] otherwise.  A line is recorded as
    the call that was made: sink, format text as the source spells it,
    and the argument values. *)
Inductive sink : Set := Stdout | Screen.

Inductive printf_arg : Set :=
| Arg_str (s : string)
| Arg_int (n : Z)
| Arg_unsigned (n : Z)
| Arg_double (x : float).

(** The values [STAT_VAL(e)] of one summary chain, that is each
    [stats[e].result] after its cast to [int]. *)
Record slabs_stats : Set := {
  stat_AOBJS : Z;   stat_OBJS : Z;   stat_ASLABS : Z;  stat_SLABS : Z;
  stat_ACACHES : Z; stat_CACHES : Z; stat_ACTIVE : Z;  stat_TOTAL : Z;
  stat_MIN : Z;     stat_AVG : Z;    stat_MAX : Z }.

(** One row handle: the eight displayed results of a chain, the numbers
    after the [(unsigned)] cast of [my_NUM]. *)
Record slabnode_chain : Set := {
  my_OBJS : Z;  my_AOBJS : Z; my_USE : Z;  my_OSIZE : Z;
  my_SLABS : Z; my_OPS : Z;   my_SIZE : Z; my_NAME : string }.

Definition null_chain : slabnode_chain :=
  {| my_OBJS := 0; my_AOBJS := 0; my_USE := 0; my_OSIZE := 0;
     my_SLABS := 0; my_OPS := 0; my_SIZE := 0; my_NAME := "" |}.

Inductive event : Set :=
| Ev_usage (to_stderr : bool)
| Ev_version
| Ev_xerrx (status : Z) (msg : string)
| Ev_xwarn (msg : string)
| Ev_slabinfo_new
| Ev_chains_alloc (maxchains items : Z)
| Ev_tcgetattr
| Ev_tcsetattr
| Ev_initscr
| Ev_endwin
| Ev_resizeterm (rows cols : Z)
| Ev_signal_SIGWINCH
| Ev_signal_SIGINT
| Ev_chains_fill (maxchains : Z)
| Ev_chains_sort (nr : Z) (item : slabnode_item)
| Ev_slabs_getchain
| Ev_move (y x : Z)
| Ev_attron_REVERSE
| Ev_attroff_REVERSE
| Ev_refresh
| Ev_select (tv_sec : Z)
| Ev_read
| Ev_slabinfo_unref
| Ev_print (out : sink) (fmt : string) (args : list printf_arg).

Definition fmt_pct : string := " %-35s: %d / %d (%.1f%%)\n".
Definition fmt_size_pct : string := " %-35s: %.2fK / %.2fK (%.1f%%)\n".
Definition fmt_min_avg_max : string := " %-35s: %.2fK / %.2fK / %.2fK\n\n".
Definition fmt_headings : string := "%-78s\n".
Definition fmt_details : string :=
  "%6u %6u %3u%% %7.2fK %6u %8u %9uK %-23s\n".

(** ** The program state *)

(** Where [main] stands.  Each point is a place where the program waits
    for the outside, or a loop head. *)
Inductive pc : Set :=
| At_new                (* line 296: procps_slabinfo_new *)
| At_alloc              (* line 299: procps_slabnode_chains_alloc *)
| At_setup              (* lines 302-312: interactive terminal setup *)
| At_fill               (* line 320: top of the do-while body *)
| At_sort               (* line 325 *)
| At_render             (* lines 331-333 and 339-347 *)
| At_rows_once (i : Z)  (* line 334: one-shot row loop *)
| At_rows (i : Z)       (* line 349: interactive row loop; 352-356 on leaving *)
| At_select             (* line 357: blocked in select *)
| At_read               (* lines 359-362 *)
| At_while              (* line 365: the repeat condition *)
| At_cleanup            (* lines 367-373 *)
| Exited (status : Z).

Record state : Set := {
  (* file-scope variables *)
  geom : geometry;
  Delay : Z;
  Run_once : bool;
  Sort_item : slabnode_item;
  (* locals of main *)
  is_tty : bool;
  nr_slabs : Z;
  rc : Z;
  old_rows : Z;
  v : list slabnode_chain;
  tv_sec : Z;                 (* tv.tv_sec of the loop body *)
  (* both handlers installed by signal() *)
  handlers : bool;
  at_pc : pc;
  trace : list event }.

Definition set_geom (g : geometry) (s : state) : state :=
  {| geom := g; Delay := Delay s; Run_once := Run_once s;
     Sort_item := Sort_item s; is_tty := is_tty s; nr_slabs := nr_slabs s;
     rc := rc s; old_rows := old_rows s; v := v s; tv_sec := tv_sec s;
     handlers := handlers s; at_pc := at_pc s; trace := trace s |}.

Definition set_Delay (d : Z) (s : state) : state :=
  {| geom := geom s; Delay := d; Run_once := Run_once s;
     Sort_item := Sort_item s; is_tty := is_tty s; nr_slabs := nr_slabs s;
     rc := rc s; old_rows := old_rows s; v := v s; tv_sec := tv_sec s;
     handlers := handlers s; at_pc := at_pc s; trace := trace s |}.

Definition set_Run_once (b : bool) (s : state) : state :=
  {| geom := geom s; Delay := Delay s; Run_once := b;
     Sort_item := Sort_item s; is_tty := is_tty s; nr_slabs := nr_slabs s;
     rc := rc s; old_rows := old_rows s; v := v s; tv_sec := tv_sec s;
     handlers := handlers s; at_pc := at_pc s; trace := trace s |}.

Definition set_Sort_item (f : slabnode_item) (s : state) : state :=
  {| geom := geom s; Delay := Delay s; Run_once := Run_once s;
     Sort_item := f; is_tty := is_tty s; nr_slabs := nr_slabs s;
     rc := rc s; old_rows := old_rows s; v := v s; tv_sec := tv_sec s;
     handlers := handlers s; at_pc := at_pc s; trace := trace s |}.

Definition set_is_tty (b : bool) (s : state) : state :=
  {| geom := geom s; Delay := Delay s; Run_once := Run_once s;
     Sort_item := Sort_item s; is_tty := b; nr_slabs := nr_slabs s;
     rc := rc s; old_rows := old_rows s; v := v s; tv_sec := tv_sec s;
     handlers := handlers s; at_pc := at_pc s; trace := trace s |}.

Definition set_nr_slabs (n : Z) (s : state) : state :=
  {| geom := geom s; Delay := Delay s; Run_once := Run_once s;
     Sort_item := Sort_item s; is_tty := is_tty s; nr_slabs := n;
     rc := rc s; old_rows := old_rows s; v := v s; tv_sec := tv_sec s;
     handlers := handlers s; at_pc := at_pc s; trace := trace s |}.

Definition set_rc (r : Z) (s : state) : state :=
  {| geom := geom s; Delay := Delay s; Run_once := Run_once s;
     Sort_item := Sort_item s; is_tty := is_tty s; nr_slabs := nr_slabs s;
     rc := r; old_rows := old_rows s; v := v s; tv_sec := tv_sec s;
     handlers := handlers s; at_pc := at_pc s; trace := trace s |}.

Definition set_old_rows (r : Z) (s : state) : state :=
  {| geom := geom s; Delay := Delay s; Run_once := Run_once s;
     Sort_item := Sort_item s; is_tty := is_tty s; nr_slabs := nr_slabs s;
     rc := rc s; old_rows := r; v := v s; tv_sec := tv_sec s;
     handlers := handlers s; at_pc := at_pc s; trace := trace s |}.

Definition set_v (a : list slabnode_chain) (s : state) : state :=
  {| geom := geom s; Delay := Delay s; Run_once := Run_once s;
     Sort_item := Sort_item s; is_tty := is_tty s; nr_slabs := nr_slabs s;
     rc := rc s; old_rows := old_rows s; v := a; tv_sec := tv_sec s;
     handlers := handlers s; at_pc := at_pc s; trace := trace s |}.

Definition set_tv_sec (t : Z) (s : state) : state :=
  {| geom := geom s; Delay := Delay s; Run_once := Run_once s;
     Sort_item := Sort_item s; is_tty := is_tty s; nr_slabs := nr_slabs s;
     rc := rc s; old_rows := old_rows s; v := v s; tv_sec := t;
     handlers := handlers s; at_pc := at_pc s; trace := trace s |}.

Definition set_handlers (b : bool) (s : state) : state :=
  {| geom := geom s; Delay := Delay s; Run_once := Run_once s;
     Sort_item := Sort_item s; is_tty := is_tty s; nr_slabs := nr_slabs s;
     rc := rc s; old_rows := old_rows s; v := v s; tv_sec := tv_sec s;
     handlers := b; at_pc := at_pc s; trace := trace s |}.

Definition goto (p : pc) (s : state) : state :=
  {| geom := geom s; Delay := Delay s; Run_once := Run_once s;
     Sort_item := Sort_item s; is_tty := is_tty s; nr_slabs := nr_slabs s;
     rc := rc s; old_rows := old_rows s; v := v s; tv_sec := tv_sec s;
     handlers := handlers s; at_pc := p; trace := trace s |}.

Definition emit (es : list event) (s : state) : state :=
  {| geom := geom s; Delay := Delay s; Run_once := Run_once s;
     Sort_item := Sort_item s; is_tty := is_tty s; nr_slabs := nr_slabs s;
     rc := rc s; old_rows := old_rows s; v := v s; tv_sec := tv_sec s;
     handlers := handlers s; at_pc := at_pc s; trace := trace s ++ es |}.

(** The statics at program start: [Cols] and [Rows] are zero-initialised,
    [Delay = 3], [Run_once = 0], [Sort_item = DEFAULT_SORT]. *)
Definition initial : state :=
  {| geom := {| Cols := 0; Rows := 0 |};
     Delay := 3; Run_once := false; Sort_item := DEFAULT_SORT;
     is_tty := false; nr_slabs := 0; rc := EXIT_SUCCESS; old_rows := 0;
     v := []; tv_sec := 0; handlers := false; at_pc := At_new; trace := [] |}.

(** ** Signal handlers (lines 80-96) *)

(** [term_resize] as the SIGWINCH handler and as the direct call of line
    307: it stores the geometry and touches nothing else. *)
Definition do_term_resize (q : ioctl_result) (s : state) : state :=
  set_geom (term_resize q) s.

Definition sigint_handler (s : state) : state := set_Delay 0 s.

(** ** parse_opts (lines 159-194) *)

(** One answer of [getopt_long].  For [-d] the argument has already gone
    through [strtol_or_err] (strutils, not in this file): [None] when
    that helper reports the error and exits. *)
Inductive getopt : Set :=
| Opt_d (secs : option Z)
| Opt_s (optarg : string)
| Opt_o
| Opt_V
| Opt_h
| Opt_other.

(** [optarg[0]]; the terminating NUL when the argument is empty. *)
Definition first_char (optarg : string) : Z :=
  match optarg with
  | EmptyString => 0
  | String a _ => chr a
  end.

Definition exit_with (status : Z) (es : list event) (s : state) : state :=
  goto (Exited status) (emit es s).

(** [usage] (lines 98-124): prints, then exits with failure exactly when
    it printed to stderr. *)
Definition usage (to_stderr : bool) (s : state) : state :=
  exit_with (if to_stderr then EXIT_FAILURE else EXIT_SUCCESS)
            [Ev_usage to_stderr] s.

Definition parse_opt (o : getopt) (s : state) : state :=
  match o with
  | Opt_d None => exit_with EXIT_FAILURE [Ev_xerrx EXIT_FAILURE "illegal delay"] s
  | Opt_d (Some d) =>
      let s := set_Delay d s in
      if Delay s <? 1
      then exit_with EXIT_FAILURE
             [Ev_xerrx EXIT_FAILURE "delay must be positive integer"] s
      else s
  | Opt_s optarg => set_Sort_item (set_sort_item (first_char optarg)) s
  | Opt_o => set_Delay 0 (set_Run_once true s)
  | Opt_V => exit_with EXIT_SUCCESS [Ev_version] s
  | Opt_h => usage false s
  | Opt_other => usage true s
  end.

Definition exited (s : state) : bool :=
  match at_pc s with Exited _ => true | _ => false end.

Fixpoint parse_opts (opts : list getopt) (s : state) : state :=
  match opts with
  | [] => s
  | o :: rest =>
      let s := parse_opt o s in
      if exited s then s else parse_opts rest s
  end.

(** ** Printing (lines 196-277) *)

Definition PRINT_line (once : bool) (fmt : string) (args : list printf_arg) : event :=
  Ev_print (if once then Stdout else Screen) fmt args.

(** The five lines of [print_summary], once the chain was obtained. *)
Definition summary_lines (once : bool) (st : slabs_stats) : list event :=
  [ PRINT_line once fmt_pct
      [ Arg_str "Active / Total Objects (% used)";
        Arg_int (stat_AOBJS st); Arg_int (stat_OBJS st);
        Arg_double (percent (stat_AOBJS st) (stat_OBJS st)) ];
    PRINT_line once fmt_pct
      [ Arg_str "Active / Total Slabs (% used)";
        Arg_int (stat_ASLABS st); Arg_int (stat_SLABS st);
        Arg_double (percent (stat_ASLABS st) (stat_SLABS st)) ];
    PRINT_line once fmt_pct
      [ Arg_str "Active / Total Caches (% used)";
        Arg_int (stat_ACACHES st); Arg_int (stat_CACHES st);
        Arg_double (percent (stat_ACACHES st) (stat_CACHES st)) ];
    PRINT_line once fmt_size_pct
      [ Arg_str "Active / Total Size (% used)";
        Arg_double (kib (stat_ACTIVE st)); Arg_double (kib (stat_TOTAL st));
        Arg_double (percent (stat_ACTIVE st) (stat_TOTAL st)) ];
    PRINT_line once fmt_min_avg_max
      [ Arg_str "Minimum / Average / Maximum Object";
        Arg_double (kib (stat_MIN st)); Arg_double (kib (stat_AVG st));
        Arg_double (kib (stat_MAX st)) ] ].

(** [print_summary]: [xerrx] leaves the process at once when
    [procps_slabs_getchain] fails. *)
Definition print_summary (getchain_rc : Z) (st : slabs_stats) (s : state) : state :=
  let s := emit [Ev_slabs_getchain] s in
  if getchain_rc <? 0
  then exit_with EXIT_FAILURE
         [Ev_xerrx EXIT_FAILURE "Error getting slab summary results"] s
  else emit (summary_lines (Run_once s) st) s.

Definition headings_line (once : bool) : event :=
  PRINT_line once fmt_headings
    [ Arg_str "  OBJS ACTIVE  USE OBJ SIZE  SLABS OBJ/SLAB CACHE SIZE NAME" ].

Definition print_headings (s : state) : state :=
  emit [ headings_line (Run_once s) ] s.

Definition details_line (once : bool) (chain : slabnode_chain) : event :=
  PRINT_line once fmt_details
    [ Arg_unsigned (my_OBJS chain); Arg_unsigned (my_AOBJS chain);
      Arg_unsigned (my_USE chain);
      Arg_double (PrimFloat.div (of_unsigned (my_OSIZE chain)) 1024%float);
      Arg_unsigned (my_SLABS chain); Arg_unsigned (my_OPS chain);
      Arg_unsigned (my_SIZE chain / 1024);
      Arg_str (my_NAME chain) ].

Definition print_details (chain : slabnode_chain) (s : state) : state :=
  emit [ details_line (Run_once s) chain ] s.

(** [v[i]]; the collector never reports more live handles than the
    buffer holds, an index past it reads the null chain here. *)
Definition v_at (s : state) (i : Z) : slabnode_chain :=
  nth (Z.to_nat i) (v s) null_chain.

(** ** main (lines 280-374) *)

(** What the outside answers at a program point, or a signal it
    delivers. *)
Inductive input : Set :=
| In_tau                                   (* the program moves on its own *)
| In_slabinfo_new (r : Z)
| In_chains_alloc (a : option (list slabnode_chain))
| In_setup (tty : bool) (tcgetattr_rc : Z) (q : ioctl_result)
| In_chains_fill (nr : Z)
| In_chains_sort (a : option (list slabnode_chain))
| In_slabs_getchain (r : Z) (st : slabs_stats)
| In_select (r : Z)
| In_read (n : Z) (c : Z)
| In_SIGINT
| In_SIGWINCH (q : ioctl_result).

(** Lines 302-312. *)
Definition setup (tty : bool) (tcgetattr_rc : Z) (q : ioctl_result) (s : state) : state :=
  let s := set_is_tty tty s in
  let s := if is_tty s
           then emit (Ev_tcgetattr ::
                      if tcgetattr_rc =? -1
                      then [Ev_xwarn "terminal setting retrieval"] else []) s
           else s in
  let s := set_old_rows (Rows (geom s)) s in
  let s := do_term_resize q s in
  let s := emit [Ev_initscr; Ev_resizeterm (Rows (geom s)) (Cols (geom s));
                 Ev_signal_SIGWINCH; Ev_signal_SIGINT] s in
  set_handlers true s.

(** Lines 331-333 (one-shot) and 339-347 (interactive): everything
    between the sort and the row loop. *)
Definition render_top (getchain_rc : Z) (st : slabs_stats) (s : state) : state :=
  if Run_once s then
    let s := print_summary getchain_rc st s in
    if exited s then s
    else goto (At_rows_once 0) (print_headings s)
  else
    let s := if negb (old_rows s =? Rows (geom s))
             then set_old_rows (Rows (geom s))
                    (emit [Ev_resizeterm (Rows (geom s)) (Cols (geom s))] s)
             else s in
    let s := emit [Ev_move 0 0] s in
    let s := print_summary getchain_rc st s in
    if exited s then s
    else
      let s := emit [Ev_attron_REVERSE] s in
      let s := print_headings s in
      let s := emit [Ev_attroff_REVERSE] s in
      goto (At_rows 0) s.

(** Lines 367-373. *)
Definition cleanup (s : state) : state :=
  let s := if negb (Run_once s)
           then emit ((if is_tty s then [Ev_tcsetattr] else []) ++ [Ev_endwin]) s
           else s in
  let s := emit [Ev_slabinfo_unref] s in
  goto (Exited (rc s)) s.

(** A [break] with [rc = EXIT_FAILURE] after [xwarn]. *)
Definition fail_and_break (msg : string) (s : state) : state :=
  goto At_cleanup (set_rc EXIT_FAILURE (emit [Ev_xwarn msg] s)).

(** One move of [main] or one signal.  [None] when the input is not what
    the program point asks for, when the process has exited, or when a
    signal arrives before the handlers are installed (its default
    disposition is not modelled).  A signal may arrive at any program
    point; at [At_select] it arrives during the wait, whose timeout was
    copied from [Delay] at line 355. *)
Definition step (s : state) (i : input) : option state :=
  match at_pc s, i with
  | Exited _, _ => None
  | _, In_SIGINT =>
      if handlers s then Some (sigint_handler s) else None
  | _, In_SIGWINCH q =>
      if handlers s then Some (do_term_resize q s) else None
  | At_new, In_slabinfo_new r =>
      let s := emit [Ev_slabinfo_new] s in
      Some (if r <? 0
            then exit_with EXIT_FAILURE
                   [Ev_xerrx EXIT_FAILURE "Unable to create slabinfo structure"] s
            else goto At_alloc s)
  | At_alloc, In_chains_alloc a =>
      let s := emit [Ev_chains_alloc CHAINS_ALLOC MAX_ITEMS] s in
      Some (match a with
            | None => exit_with EXIT_FAILURE
                        [Ev_xerrx EXIT_FAILURE "Unable to allocate slabinfo nodes"] s
            | Some a =>
                goto (if Run_once s then At_fill else At_setup) (set_v a s)
            end)
  | At_setup, In_setup tty r q =>
      Some (goto At_fill (setup tty r q s))
  | At_fill, In_chains_fill nr =>
      let s := set_nr_slabs nr (emit [Ev_chains_fill CHAINS_ALLOC] s) in
      Some (if nr_slabs s <? 0
            then fail_and_break "Unable to get slabinfo node data" s
            else goto At_sort s)
  | At_sort, In_chains_sort a =>
      let s := emit [Ev_chains_sort (nr_slabs s) (Sort_item s)] s in
      Some (match a with
            | None => fail_and_break "Unable to sort slab nodes" (set_v [] s)
            | Some a => goto At_render (set_v a s)
            end)
  | At_render, In_slabs_getchain r st =>
      Some (render_top r st s)
  | At_rows_once i, In_tau =>
      Some (if i <? nr_slabs s
            then goto (At_rows_once (i + 1)) (print_details (v_at s i) s)
            else goto At_cleanup s)
  | At_rows i, In_tau =>
      Some (if (i <? Rows (geom s) - 8) && (i <? nr_slabs s)
            then goto (At_rows (i + 1)) (print_details (v_at s i) s)
            else goto At_select (set_tv_sec (Delay s) (emit [Ev_refresh] s)))
  | At_select, In_select r =>
      let s := emit [Ev_select (tv_sec s)] s in
      Some (if 0 <? r then goto At_read s else goto At_while s)
  | At_read, In_read n c =>
      let s := emit [Ev_read] s in
      Some (if negb (n =? 1) || ((c =? chr "Q") || (c =? chr "q"))
            then goto At_cleanup s
            else goto At_while (set_Sort_item (set_sort_item c) s))
  | At_while, In_tau =>
      Some (if negb (Delay s =? 0) then goto At_fill s else goto At_cleanup s)
  | At_cleanup, In_tau =>
      Some (cleanup s)
  | _, _ => None
  end.

Fixpoint run (s : state) (ins : list input) : option state :=
  match ins with
  | [] => Some s
  | i :: rest =>
      match step s i with
      | Some s' => run s' rest
      | None => None
      end
  end.

(** [main] on the answers of [getopt_long], then on the rest of the
    world. *)
Definition start (opts : list getopt) : state := parse_opts opts initial.

Definition main (opts : list getopt) (ins : list input) : option state :=
  run (start opts) ins.

(** ** Observations on a trace *)

Definition is_fetch (e : event) : bool :=
  match e with Ev_chains_fill _ => true | _ => false end.

Definition is_details (e : event) : bool :=
  match e with Ev_print _ fmt _ => String.eqb fmt fmt_details | _ => false end.

Definition is_restore (e : event) : bool :=
  match e with Ev_tcsetattr | Ev_endwin => true | _ => false end.

Definition count (p : event -> bool) (t : list event) : Z :=
  Z.of_nat (List.length (filter p t)).

(** How [printf] converts a [double] under [%f] (C11 7.21.6.1): an
    infinity in the style [[-]inf], a NaN in the style [[-]nan], any
    other value as decimal digits. *)
Inductive f_conversion : Set :=
| F_digits (x : float)
| F_inf (negative : bool)
| F_nan.

Definition convert_f (x : float) : f_conversion :=
  if PrimFloat.is_nan x then F_nan
  else if PrimFloat.is_infinity x then F_inf (PrimFloat.ltb x 0%float)
  else F_digits x.

(** The [double] handed to [%.1f] by a percentage line. *)
Definition percent_arg (e : event) : option float :=
  match e with
  | Ev_print _ _ [_; _; _; Arg_double x] => Some x
  | _ => None
  end.

(** ** Program points *)

(** Inside the body of the do-while loop, its repeat condition
    included. *)
Definition in_cycle (p : pc) : bool :=
  match p with
  | At_fill | At_sort | At_render | At_rows_once _ | At_rows _
  | At_select | At_read | At_while => true
  | _ => false
  end.

Definition at_fill (p : pc) : bool :=
  match p with At_fill => true | _ => false end.

(** At or after the top of the loop. *)
Definition past_setup (p : pc) : bool :=
  match p with
  | At_new | At_alloc | At_setup | Exited _ => false
  | _ => true
  end.

(** Between a successful fetch and the end of the row loop. *)
Definition past_fill (p : pc) : bool :=
  match p with
  | At_sort | At_render | At_rows_once _ | At_rows _ => true
  | _ => false
  end.

(** Reached in interactive mode only. *)
Definition interactive_pc (p : pc) : bool :=
  match p with
  | At_setup | At_rows _ | At_select | At_read | At_while => true
  | _ => false
  end.

(** ** Kinds of options, inputs and events *)

(** The options that write [Delay]: [-d] and [-o]. *)
Definition sets_delay (o : getopt) : bool :=
  match o with
  | Opt_d _ | Opt_o => true
  | _ => false
  end.

Definition is_SIGINT (i : input) : bool :=
  match i with In_SIGINT => true | _ => false end.

Definition not_SIGINT (i : input) : bool := negb (is_SIGINT i).

Definition any_input (i : input) : bool := true.

(** What [parse_opts] may leave on the trace: usage or version text, or
    a fatal message. *)
Definition parse_event (e : event) : bool :=
  match e with
  | Ev_usage _ | Ev_version | Ev_xerrx _ _ => true
  | _ => false
  end.

(** The header as the interactive renderer leaves it on the trace. *)
Definition header_events : list event :=
  [ Ev_attron_REVERSE; headings_line false; Ev_attroff_REVERSE ].

(** The rows [v[i]], [v[i+1]], ... printed by [k] turns of the one-shot
    row loop. *)
Fixpoint rows_from (a : list slabnode_chain) (i : Z) (k : nat) : list event :=
  match k with
  | O => []
  | S k => details_line true (nth (Z.to_nat i) a null_chain)
           :: rows_from a (i + 1) k
  end.

(** Every bounded wait recorded in a trace had the timeout [d]. *)
Definition waits_are (d : Z) (t : list event) : Prop :=
  Forall (fun e => match e with Ev_select tv => tv = d | _ => True end) t.

(** ** Invariants of the loop *)

(** What holds of the geometry and of the live count wherever the loop
    stands. *)
Definition loop_inv (s : state) : Prop :=
  (past_setup (at_pc s) = true -> Run_once s = false -> 10 < Rows (geom s)) /\
  (past_fill (at_pc s) = true -> 0 <= nr_slabs s) /\
  (interactive_pc (at_pc s) = true -> Run_once s = false).

(** At the head of the interactive row loop the summary and the header
    are the last things printed; the loop index never goes below 0. *)
Definition rows_head_inv (s : state) : Prop :=
  match at_pc s with
  | At_rows i =>
      0 <= i /\
      (i = 0 -> exists t st,
          trace s = t ++ summary_lines false st ++ header_events)
  | _ => True
  end.

(** While no interrupt arrives: the delay is [d], every wait so far had
    the timeout [d], and so has the wait the program is blocked in. *)
Definition delay_inv (d : Z) (s : state) : Prop :=
  Delay s = d /\ waits_are d (trace s) /\
  (at_pc s = At_select -> tv_sec s = d).

(** After an interrupt inside a cycle: the delay is zero for good, and
    the number of fetches on the trace is [n] everywhere except at the
    top of the body, where the fetch of the cycle in flight is still to
    come; the program stands there only if the interrupt found it there
    ([pending]). *)
Definition interrupted_inv (pending : bool) (n : Z) (s : state) : Prop :=
  Delay s = 0 /\
  match at_pc s with
  | At_new | At_alloc | At_setup => False
  | At_fill => pending = true /\ count is_fetch (trace s) + 1 = n
  | _ => count is_fetch (trace s) = n
  end.

(** In one-shot mode: no fetch before the top of the body, one from
    there on, and none of the interactive program points. *)
Definition once_inv (s : state) : Prop :=
  Run_once s = true /\
  match at_pc s with
  | At_new | At_alloc | At_fill => count is_fetch (trace s) = 0
  | At_sort | At_render | At_rows_once _ | At_cleanup =>
      count is_fetch (trace s) = 1
  | Exited _ => count is_fetch (trace s) <= 1
  | At_setup | At_rows _ | At_select | At_read | At_while => False
  end.

(** ** Sample answers of the outside, for the worked runs *)

Definition sample_stats : slabs_stats :=
  {| stat_AOBJS := 3; stat_OBJS := 10; stat_ASLABS := 0; stat_SLABS := 0;
     stat_ACACHES := 1; stat_CACHES := 1; stat_ACTIVE := 2048;
     stat_TOTAL := 4096; stat_MIN := 8; stat_AVG := 100; stat_MAX := 8192 |}.

Definition sample_query : ioctl_result :=
  {| io_rc := 0; io_ws := {| ws_row := 12; ws_col := 100 |} |}.

Definition sample_chain : slabnode_chain :=
  {| my_OBJS := 16; my_AOBJS := 8; my_USE := 50; my_OSIZE := 512;
     my_SLABS := 2; my_OPS := 8; my_SIZE := 8192; my_NAME := "kmalloc-512" |}.

(** An interactive run on a 12-row terminal with five live caches, up
    to the head of the row loop, and the state it reaches. *)
Definition sample_interactive : list input :=
  [ In_slabinfo_new 0; In_chains_alloc (Some []);
    In_setup true 0 sample_query;
    In_chains_fill 5; In_chains_sort (Some (repeat sample_chain 5));
    In_slabs_getchain 0 sample_stats ].

Definition sample_at_rows : state :=
  Eval vm_compute in
    match main [] sample_interactive with Some s => s | None => initial end.

(** The same run once its four rows are on the screen, blocked in
    [select]. *)
Definition sample_at_select : state :=
  Eval vm_compute in
    match main [] (sample_interactive ++ repeat In_tau 5) with
    | Some s => s
    | None => initial
    end.

(** What follows an interrupt that lands during the wait: [select]
    returns -1, the repeat condition is evaluated, the cleanup runs. *)
Definition sample_interrupted_wait : list input :=
  [In_select (-1); In_tau; In_tau].

Definition sample_after_interrupt : state :=
  Eval vm_compute in
    match run sample_at_select (In_SIGINT :: sample_interrupted_wait) with
    | Some s => s
    | None => initial
    end.

(** The run started with [-s n], up to the moment a byte is ready to be
    read. *)
Definition sample_until_read : list input :=
  sample_interactive ++ repeat In_tau 5 ++ [In_select 1].

Definition sample_at_read : state :=
  Eval vm_compute in
    match main [Opt_s "n"] sample_until_read with
    | Some s => s
    | None => initial
    end.

(** Interactive runs in which the summary chain cannot be obtained in
    the first cycle, and in which the first fetch fails. *)
Definition sample_summary_failure : list input :=
  [ In_slabinfo_new 0; In_chains_alloc (Some []);
    In_setup true 0 sample_query;
    In_chains_fill 5; In_chains_sort (Some (repeat sample_chain 5));
    In_slabs_getchain (-1) sample_stats ].

Definition sample_fetch_failure : list input :=
  [ In_slabinfo_new 0; In_chains_alloc (Some []);
    In_setup true 0 sample_query;
    In_chains_fill (-1); In_tau ].

(** The answers of the outside in a one-shot run that goes well, up to
    the row loop; then a run in which the collector reports no live
    cache. *)
Definition once_inputs (r0 : Z) (a0 : list slabnode_chain) (nr : Z)
  (a : list slabnode_chain) (r : Z) (st : slabs_stats) : list input :=
  [ In_slabinfo_new r0; In_chains_alloc (Some a0); In_chains_fill nr;
    In_chains_sort (Some a); In_slabs_getchain r st ].

Definition sample_once_empty : list input :=
  once_inputs 0 [] 0 [] 0 sample_stats ++ [In_tau; In_tau].

Arguments percent : simpl never.
Arguments kib : simpl never.
Arguments summary_lines : simpl never.
Arguments headings_line : simpl never.
Arguments details_line : simpl never.

(** ** Binary64 values by sign *)

(** A specification float that is neither a zero nor a NaN, of sign
    [s]. *)
Definition signed_nonzero (s : bool) (x : spec_float) : Prop :=
  x = S754_infinity s \/ exists m e, x = S754_finite s m e.

(** 100.0 as a specification float. *)
Definition SF_100 : spec_float := Eval vm_compute in Prim2SF 100%float.

(** The range of a C [int]. *)
Definition is_int (a : Z) : Prop := - 2 ^ 31 <= a < 2 ^ 31.


(** ** The interactive row loop when signals land in it *)

(** What the row loop takes: its own turn, or a signal. *)
Definition row_loop_input (i : input) : bool :=
  match i with In_tau | In_SIGINT | In_SIGWINCH _ => true | _ => false end.

Definition not_SIGWINCH (i : input) : bool :=
  match i with In_SIGWINCH _ => false | _ => true end.

(** Inside the row loop entered in [s0], or just out of it: the rows
    printed so far are as many as the loop index, none beyond the live
    count. *)
Definition rows_progress_inv (s0 s : state) : Prop :=
  at_pc s = At_select \/
  exists i rows,
    at_pc s = At_rows i /\ 0 <= i <= nr_slabs s0 /\
    nr_slabs s = nr_slabs s0 /\ Run_once s = false /\
    trace s = trace s0 ++ rows /\ forallb is_details rows = true /\
    Z.of_nat (List.length rows) = i.

(** As long as no window change arrives: the geometry is that of [s0]
    and the loop index has not passed the room. *)
Definition rows_room_inv (s0 s : state) : Prop :=
  geom s = geom s0 /\
  forall i, at_pc s = At_rows i -> i <= Rows (geom s0) - 8.

(** A 50-row terminal with thirty live caches, up to the head of the row
    loop; then ten rows are drawn, the window shrinks to 12 rows, and
    the loop takes its next turn. *)
Definition sample_tall_query : ioctl_result :=
  {| io_rc := 0; io_ws := {| ws_row := 50; ws_col := 100 |} |}.

Definition sample_tall : list input :=
  [ In_slabinfo_new 0; In_chains_alloc (Some []);
    In_setup true 0 sample_tall_query;
    In_chains_fill 30; In_chains_sort (Some (repeat sample_chain 30));
    In_slabs_getchain 0 sample_stats ].

Definition sample_tall_at_rows : state :=
  Eval vm_compute in
    match main [] sample_tall with Some s => s | None => initial end.

Definition sample_shrink : list input :=
  repeat In_tau 10 ++ [In_SIGWINCH sample_query; In_tau].

Definition sample_shrunk : state :=
  Eval vm_compute in
    match run sample_tall_at_rows sample_shrink with
    | Some s => s
    | None => initial
    end.


(** ** Further observations, for the properties beyond the claims *)

Definition is_Opt_o (o : getopt) : bool :=
  match o with Opt_o => true | _ => false end.

Definition is_Opt_s (o : getopt) : bool :=
  match o with Opt_s _ => true | _ => false end.

(** The status with which an option makes [parse_opts] leave the
    process, if it does: a delay that is not a positive integer, a
    version or help request, an unknown option. *)
Definition opt_exit_status (o : getopt) : option Z :=
  match o with
  | Opt_d None => Some EXIT_FAILURE
  | Opt_d (Some d) => if d <? 1 then Some EXIT_FAILURE else None
  | Opt_V | Opt_h => Some EXIT_SUCCESS
  | Opt_other => Some EXIT_FAILURE
  | Opt_s _ | Opt_o => None
  end.

Definition harmless (o : getopt) : bool :=
  match opt_exit_status o with None => true | Some _ => false end.

Definition is_slabinfo_new (e : event) : bool :=
  match e with Ev_slabinfo_new => true | _ => false end.

Definition is_unref (e : event) : bool :=
  match e with Ev_slabinfo_unref => true | _ => false end.

Definition is_initscr (e : event) : bool :=
  match e with Ev_initscr => true | _ => false end.

Definition is_endwin (e : event) : bool :=
  match e with Ev_endwin => true | _ => false end.

Definition is_tcgetattr (e : event) : bool :=
  match e with Ev_tcgetattr => true | _ => false end.

Definition is_tcsetattr (e : event) : bool :=
  match e with Ev_tcsetattr => true | _ => false end.

(** A call to curses, to the terminal, or a wait for the keyboard. *)
Definition is_terminal_call (e : event) : bool :=
  match e with
  | Ev_tcgetattr | Ev_tcsetattr | Ev_initscr | Ev_endwin | Ev_resizeterm _ _
  | Ev_signal_SIGWINCH | Ev_signal_SIGINT | Ev_move _ _
  | Ev_attron_REVERSE | Ev_attroff_REVERSE | Ev_refresh
  | Ev_select _ | Ev_read => true
  | _ => false
  end.

(** A message that goes with a failure status: any [xerrx], the usage
    text on stderr, and the two [xwarn]s of the loop body.  The [xwarn]
    of the setup (line 305) is only a warning. *)
Definition is_failure (e : event) : bool :=
  match e with
  | Ev_xerrx _ _ => true
  | Ev_usage to_stderr => to_stderr
  | Ev_xwarn msg => negb (String.eqb msg "terminal setting retrieval")
  | _ => false
  end.

(** Every line on the trace went to the sink [out]. *)
Definition printed_to (out : sink) (t : list event) : Prop :=
  Forall (fun e => match e with Ev_print o _ _ => o = out | _ => True end) t.

(** The rows [v[i]], [v[i+1]], ... put on the screen by [k] turns of the
    interactive row loop. *)
Fixpoint screen_rows (a : list slabnode_chain) (i : Z) (k : nat) : list event :=
  match k with
  | O => []
  | S k => details_line false (nth (Z.to_nat i) a null_chain)
           :: screen_rows a (i + 1) k
  end.

(** What one interactive cycle puts on the trace from the top of the
    loop body up to the wait, when fetch, sort and summary succeed. *)
Definition frame (s : state) (nr : Z) (a : list slabnode_chain)
  (st : slabs_stats) (n : nat) : list event :=
  [ Ev_chains_fill CHAINS_ALLOC; Ev_chains_sort nr (Sort_item s) ]
  ++ (if old_rows s =? Rows (geom s) then []
      else [Ev_resizeterm (Rows (geom s)) (Cols (geom s))])
  ++ [ Ev_move 0 0; Ev_slabs_getchain ]
  ++ summary_lines false st ++ header_events
  ++ map (details_line false) (firstn n a) ++ [Ev_refresh].

(** The answers of the outside during such a cycle. *)
Definition cycle_inputs (nr : Z) (a : list slabnode_chain) (r : Z)
  (st : slabs_stats) (n : nat) : list input :=
  [ In_chains_fill nr; In_chains_sort (Some a); In_slabs_getchain r st ]
  ++ repeat In_tau (S n).




(** Where the resources of the process stand, by program point: the
    collector handle, curses, the saved terminal attributes, the signal
    handlers. *)
Definition lifecycle_inv (s : state) : Prop :=
  let c p := count p (trace s) in
  match at_pc s with
  | At_new =>
      c is_slabinfo_new = 0 /\ c is_unref = 0 /\ c is_initscr = 0 /\
      c is_endwin = 0 /\ c is_tcgetattr = 0 /\ c is_tcsetattr = 0 /\
      is_tty s = false /\ handlers s = false
  | At_alloc =>
      c is_slabinfo_new = 1 /\ c is_unref = 0 /\ c is_initscr = 0 /\
      c is_endwin = 0 /\ c is_tcgetattr = 0 /\ c is_tcsetattr = 0 /\
      is_tty s = false /\ handlers s = false
  | At_setup =>
      c is_slabinfo_new = 1 /\ c is_unref = 0 /\ c is_initscr = 0 /\
      c is_endwin = 0 /\ c is_tcgetattr = 0 /\ c is_tcsetattr = 0 /\
      is_tty s = false /\ handlers s = false /\ Run_once s = false
  | Exited _ =>
      c is_slabinfo_new <= 1 /\ c is_unref <= c is_slabinfo_new /\
      c is_initscr <= 1 /\ c is_endwin <= c is_initscr /\
      c is_tcgetattr <= c is_initscr /\ c is_tcsetattr <= c is_tcgetattr /\
      (c is_unref = 1 ->
       c is_endwin = c is_initscr /\ c is_tcsetattr = c is_tcgetattr)
  | _ =>
      c is_slabinfo_new = 1 /\ c is_unref = 0 /\
      c is_initscr = (if Run_once s then 0 else 1) /\
      c is_endwin = 0 /\
      c is_tcgetattr = (if is_tty s then 1 else 0) /\ c is_tcsetattr = 0 /\
      (is_tty s = true -> Run_once s = false) /\
      handlers s = negb (Run_once s)
  end.

(** The exit status and the failure messages go together. *)
Definition status_inv (s : state) : Prop :=
  match at_pc s with
  | Exited st =>
      (st = EXIT_SUCCESS /\ count is_failure (trace s) = 0) \/
      (st = EXIT_FAILURE /\ 0 < count is_failure (trace s))
  | At_cleanup =>
      (rc s = EXIT_SUCCESS /\ count is_failure (trace s) = 0) \/
      (rc s = EXIT_FAILURE /\ 0 < count is_failure (trace s))
  | _ => rc s = EXIT_SUCCESS /\ count is_failure (trace s) = 0
  end.

(** One-shot mode prints with [printf] and stays away from the terminal;
    interactive mode prints with [printw]. *)
Definition sink_inv (s : state) : Prop :=
  if Run_once s
  then interactive_pc (at_pc s) = false /\
       printed_to Stdout (trace s) /\ count is_terminal_call (trace s) = 0
  else printed_to Screen (trace s).





Definition is_sort (e : event) : bool :=
  match e with Ev_chains_sort _ _ => true | _ => false end.

Definition is_refresh (e : event) : bool :=
  match e with Ev_refresh => true | _ => false end.

Definition is_wait (e : event) : bool :=
  match e with Ev_select _ => true | _ => false end.

Definition is_keyread (e : event) : bool :=
  match e with Ev_read => true | _ => false end.

(** How far the fetches, the sorts, the frames, the waits and the reads
    of the keyboard have got, by program point. *)
Definition pace_inv (s : state) : Prop :=
  let F := count is_fetch (trace s) in
  let S := count is_sort (trace s) in
  let R := count is_refresh (trace s) in
  let W := count is_wait (trace s) in
  let K := count is_keyread (trace s) in
  match at_pc s with
  | At_new | At_alloc | At_setup => F = 0 /\ S = 0 /\ R = 0 /\ W = 0 /\ K = 0
  | At_fill | At_while => F = S /\ S = R /\ R = W /\ K <= W
  | At_read => F = S /\ S = R /\ R = W /\ K + 1 <= W
  | At_sort => F = S + 1 /\ S = R /\ R = W /\ K <= W
  | At_render | At_rows _ | At_rows_once _ =>
      F = S /\ S = R + 1 /\ R = W /\ K <= W
  | At_select => F = S /\ S = R /\ R = W + 1 /\ K <= W
  | At_cleanup | Exited _ => W <= R /\ R <= S /\ S <= F /\ F <= W + 1 /\ K <= W
  end.


(** The sample run started with [-d 2 -d 7 -s u], after its first wait
    has timed out. *)
Definition sample_delayed_wait : state :=
  Eval vm_compute in
    match main [Opt_d (Some 2); Opt_d (Some 7); Opt_s "u"]
               (sample_interactive ++ repeat In_tau 5 ++ [In_select 0]) with
    | Some s => s
    | None => initial
    end.


(** A finite, nonzero specification float whose magnitude (the number
    of binary digits of the mantissa plus the exponent) lies between
    [lo] and [hi]. *)
Definition finite_within (lo hi : Z) (x : spec_float) : Prop :=
  exists s m e, x = S754_finite s m e /\
                lo <= Zpos (digits2_pos m) + e <= hi.

(** The eleven values of a summary chain are C [int]s. *)
Definition stats_are_int (st : slabs_stats) : Prop :=
  Forall is_int
    [ stat_AOBJS st; stat_OBJS st; stat_ASLABS st; stat_SLABS st;
      stat_ACACHES st; stat_CACHES st; stat_ACTIVE st; stat_TOTAL st;
      stat_MIN st; stat_AVG st; stat_MAX st ].

(** The range of a C [unsigned]. *)
Definition is_unsigned (n : Z) : Prop := 0 <= n < 2 ^ 32.

(** 1024.0 as a specification float. *)
Definition SF_1024 : spec_float := Eval vm_compute in Prim2SF 1024%float.

(** A summary chain none of whose totals is 0. *)
Definition sample_stats_busy : slabs_stats :=
  {| stat_AOBJS := 3; stat_OBJS := 10; stat_ASLABS := 0; stat_SLABS := 7;
     stat_ACACHES := 1; stat_CACHES := 1; stat_ACTIVE := 2048;
     stat_TOTAL := 4096; stat_MIN := 8; stat_AVG := 100; stat_MAX := 8192 |}.






(** * Properties *)

(** ** The sort key controller *)

Lemma tolower_idempotent (c : Z) : tolower (tolower c) = tolower c.
Proof.
  unfold tolower.
  destruct ((65 <=? c) && (c <=? 90)) eqn:E; [|now rewrite E].
  apply andb_true_iff in E. destruct E as [E1 E2].
  apply Z.leb_le in E1. apply Z.leb_le in E2.
  replace (c + 32 <=? 90) with false by (symmetry; apply Z.leb_gt; lia).
  now rewrite andb_false_r.
Qed.

Lemma set_sort_item_tolower (c : Z) : set_sort_item (tolower c) = set_sort_item c.
Proof. unfold set_sort_item. now rewrite tolower_idempotent. Qed.

Lemma tolower_toupper (c : Z) : tolower (toupper c) = tolower c.
Proof.
  unfold tolower, toupper.
  destruct (Z.leb_spec 97 c), (Z.leb_spec c 122); cbn [andb];
    repeat match goal with
           | |- context [?a <=? ?b] => destruct (Z.leb_spec a b); cbn [andb]
           end; lia.
Qed.

Lemma set_sort_item_toupper (c : Z) : set_sort_item (toupper c) = set_sort_item c.
Proof. unfold set_sort_item. now rewrite tolower_toupper. Qed.

Lemma unrecognized_is_default (c : Z) :
  recognized c = false -> set_sort_item c = DEFAULT_SORT.
Proof.
  unfold recognized. cbn. intros H.
  repeat (apply orb_false_iff in H; destruct H as [?H H]).
  repeat match goal with
         | E : (_ =? _) = false |- _ => apply Z.eqb_neq in E
         end.
  unfold set_sort_item, tolower. cbn.
  destruct (Z.leb_spec 65 c), (Z.leb_spec c 90); cbn [andb];
    repeat match goal with
           | |- context [?a =? ?b] => destruct (Z.eqb_spec a b); [lia|]
           end; reflexivity.
Qed.

Lemma set_sort_item_usage (k : Z) (f : slabnode_item) :
  In (k, f) usage_criteria ->
  set_sort_item k = f /\ set_sort_item (toupper k) = f.
Proof.
  intros H. rewrite set_sort_item_toupper.
  cbn in H.
  repeat (destruct H as [H | H]; [inversion H; split; reflexivity|]).
  contradiction.
Qed.

(** C4. [set_sort_item] is a total function of its byte; it folds case
    before matching, so a recognized character resolves alike in upper
    and lower case, to the field [usage] announces for the letter;
    every byte outside the recognized set (control characters, digits,
    punctuation, other letters) resolves to [DEFAULT_SORT]. *)
Theorem set_sort_item_case_folds_and_defaults (c : Z) :
  (recognized c = true ->
     set_sort_item (toupper c) = set_sort_item (tolower c) /\
     In (tolower c, set_sort_item c) usage_criteria) /\
  (recognized c = false -> set_sort_item c = DEFAULT_SORT).
Proof.
  split.
  - intros H. split.
    + now rewrite set_sort_item_toupper, set_sort_item_tolower.
    + unfold recognized in H. apply existsb_exists in H.
      destruct H as (k & Hin & Hk). apply Z.eqb_eq in Hk. subst k.
      cbn in Hin.
      repeat (destruct Hin as [<- | Hin]; [cbn; tauto|]). contradiction.
  - apply unrecognized_is_default.
Qed.

Lemma set_sort_item_case_folds_and_defaults_witness :
  (set_sort_item (toupper (chr "N")) = set_sort_item (tolower (chr "N")) /\
   In (tolower (chr "N"), set_sort_item (chr "N")) usage_criteria) /\
  set_sort_item (chr "7") = DEFAULT_SORT.
Proof.
  split.
  - apply (proj1 (set_sort_item_case_folds_and_defaults (chr "N"))). reflexivity.
  - apply (proj2 (set_sort_item_case_folds_and_defaults (chr "7"))). reflexivity.
Defined.

(** ** The geometry tracker *)

Lemma term_resize_fallback (q : ioctl_result) :
  io_rc q = -1 \/ ws_row (io_ws q) <= 10 ->
  term_resize q = {| Cols := 80; Rows := 24 |}.
Proof.
  intros H. unfold term_resize.
  destruct (Z.eqb_spec (io_rc q) (-1)); cbn [negb andb]; [reflexivity|].
  destruct (Z.ltb_spec 10 (ws_row (io_ws q))); [lia | reflexivity].
Qed.

Lemma term_resize_queried (q : ioctl_result) :
  io_rc q <> -1 -> 10 < ws_row (io_ws q) ->
  term_resize q = {| Cols := ws_col (io_ws q); Rows := ws_row (io_ws q) |}.
Proof.
  intros H1 H2. unfold term_resize.
  destruct (Z.eqb_spec (io_rc q) (-1)); [contradiction|]. cbn [negb andb].
  destruct (Z.ltb_spec 10 (ws_row (io_ws q))); [reflexivity | lia].
Qed.

(** C3. Whenever [term_resize] runs, as the SIGWINCH handler or called
    from the setup, the geometry becomes (80, 24) if the query failed or
    reported 10 rows or fewer, and the queried (columns, rows)
    otherwise; nothing else of the state changes.  A query reporting 5
    rows gives (80, 24). *)
Theorem term_resize_stores_query_or_fallback (q : ioctl_result) (s : state) :
  (io_rc q = -1 \/ ws_row (io_ws q) <= 10 ->
     geom (do_term_resize q s) = {| Cols := 80; Rows := 24 |}) /\
  (io_rc q <> -1 /\ 10 < ws_row (io_ws q) ->
     geom (do_term_resize q s)
     = {| Cols := ws_col (io_ws q); Rows := ws_row (io_ws q) |}) /\
  (ws_row (io_ws q) = 5 ->
     geom (do_term_resize q s) = {| Cols := 80; Rows := 24 |}) /\
  (handlers s = true -> exited s = false ->
     step s (In_SIGWINCH q) = Some (do_term_resize q s)) /\
  (forall tty r, geom (setup tty r q s) = geom (do_term_resize q s)).
Proof.
  split; [|split; [|split; [|split]]].
  - apply term_resize_fallback.
  - intros [H1 H2]. now apply term_resize_queried.
  - intros H. apply term_resize_fallback. right. lia.
  - intros Hh He. unfold step, exited in *. rewrite Hh.
    destruct (at_pc s); try discriminate; reflexivity.
  - intros tty r. unfold setup.
    destruct (is_tty (set_is_tty tty s)); reflexivity.
Qed.

Lemma term_resize_stores_query_or_fallback_witness :
  let small := {| io_rc := 0; io_ws := {| ws_row := 5; ws_col := 132 |} |} in
  let large := {| io_rc := 0; io_ws := {| ws_row := 50; ws_col := 132 |} |} in
  geom (do_term_resize small initial) = {| Cols := 80; Rows := 24 |} /\
  geom (do_term_resize large initial) = {| Cols := 132; Rows := 50 |}.
Proof.
  cbv zeta. split.
  - apply (term_resize_stores_query_or_fallback
             {| io_rc := 0; io_ws := {| ws_row := 5; ws_col := 132 |} |} initial).
    reflexivity.
  - apply (term_resize_stores_query_or_fallback
             {| io_rc := 0; io_ws := {| ws_row := 50; ws_col := 132 |} |} initial).
    cbn. split; [discriminate | reflexivity].
Defined.

(** ** Option parsing *)

Lemma parse_opt_frame (o : getopt) (s : state) :
  geom (parse_opt o s) = geom s /\ rc (parse_opt o s) = rc s /\
  handlers (parse_opt o s) = handlers s /\ is_tty (parse_opt o s) = is_tty s /\
  (exited (parse_opt o s) = false ->
     at_pc (parse_opt o s) = at_pc s /\ trace (parse_opt o s) = trace s).
Proof.
  destruct o as [[d|] | optarg | | | | ]; cbn; try destruct (d <? 1); cbn;
    repeat split; congruence.
Qed.

Lemma parse_opts_frame (opts : list getopt) : forall s,
  geom (parse_opts opts s) = geom s /\ rc (parse_opts opts s) = rc s /\
  handlers (parse_opts opts s) = handlers s /\
  is_tty (parse_opts opts s) = is_tty s /\
  (exited (parse_opts opts s) = false ->
     at_pc (parse_opts opts s) = at_pc s /\ trace (parse_opts opts s) = trace s).
Proof.
  induction opts as [|o rest IH]; intros s; cbn [parse_opts].
  - repeat split.
  - destruct (parse_opt_frame o s) as (Hg & Hr & Hh & Ht & Hp).
    destruct (exited (parse_opt o s)) eqn:E.
    + rewrite Hg, Hr, Hh, Ht.
      split; [|split; [|split; [|split]]]; try reflexivity.
      intros H. congruence.
    + destruct (IH (parse_opt o s)) as (Hg' & Hr' & Hh' & Ht' & Hp').
      rewrite Hg', Hr', Hh', Ht', Hg, Hr, Hh, Ht.
      split; [|split; [|split; [|split]]]; try reflexivity.
      intros H. destruct (Hp' H) as [-> ->]. now apply Hp.
Qed.

(** After [parse_opts] the program either has exited or stands at line
    296 with nothing printed. *)
Lemma start_at_new (opts : list getopt) :
  exited (start opts) = false ->
  at_pc (start opts) = At_new /\ trace (start opts) = [] /\
  rc (start opts) = EXIT_SUCCESS /\ handlers (start opts) = false.
Proof.
  intros H. unfold start in *.
  destruct (parse_opts_frame opts initial) as (_ & Hr & Hh & _ & Hp).
  destruct (Hp H) as [Hpc Ht]. now rewrite Hpc, Ht, Hr, Hh.
Qed.

Lemma start_pc (opts : list getopt) :
  at_pc (start opts) = At_new \/ exists st, at_pc (start opts) = Exited st.
Proof.
  destruct (exited (start opts)) eqn:E.
  - right. unfold exited in E. destruct (at_pc (start opts)); try discriminate.
    now eexists.
  - left. now apply start_at_new.
Qed.

(** ** Running the machine *)

Lemma run_app (a b : list input) : forall s,
  run s (a ++ b) = match run s a with Some s' => run s' b | None => None end.
Proof.
  induction a as [|i a IH]; intros s; cbn; [reflexivity|].
  destruct (step s i); [apply IH | reflexivity].
Qed.

Lemma run_invariant_on (ok : input -> bool) (P : state -> Prop) :
  (forall s i s', ok i = true -> P s -> step s i = Some s' -> P s') ->
  forall ins s s', forallb ok ins = true -> P s -> run s ins = Some s' -> P s'.
Proof.
  intros Hstep. induction ins as [|i ins IH]; intros s s' Hok HP H; cbn in H.
  - now inversion H; subst.
  - cbn in Hok. apply andb_true_iff in Hok. destruct Hok as [Hi Hok].
    destruct (step s i) eqn:E; [|discriminate]. eauto.
Qed.

Lemma run_invariant (P : state -> Prop) :
  (forall s i s', P s -> step s i = Some s' -> P s') ->
  forall ins s s', P s -> run s ins = Some s' -> P s'.
Proof.
  intros Hstep ins s s'. apply (run_invariant_on any_input); [eauto|].
  now induction ins.
Qed.

(** Case analysis of one [step]: the program point and the input are
    split, the branches taken inside are split, and the reached state is
    put in place. *)
Ltac split_ifs :=
  repeat match goal with
         | H : context [if ?b then _ else _] |- _ => destruct b eqn:?
         | H : context [match ?a with Some _ => _ | None => _ end] |- _ =>
             destruct a eqn:?
         end.

Ltac step_cases H :=
  unfold step in H;
  match type of H with
  | context [at_pc ?s] => destruct (at_pc s) eqn:?
  end;
  match type of H with
  | context [match ?i with In_tau => _ | _ => _ end] => destruct i
  | _ => idtac
  end;
  try discriminate H;
  unfold render_top, print_summary, fail_and_break, cleanup, setup,
    exit_with, sigint_handler, do_term_resize in H;
  cbn in H; split_ifs; try discriminate H;
  inversion H; subst; clear H; cbn in *.

Lemma term_resize_rows (q : ioctl_result) : 10 < Rows (term_resize q).
Proof.
  unfold term_resize.
  destruct (negb (io_rc q =? -1)); cbn [andb]; [|cbn; lia].
  destruct (Z.ltb_spec 10 (ws_row (io_ws q))); cbn; lia.
Qed.

Lemma step_loop_inv (s : state) (i : input) (s' : state) :
  loop_inv s -> step s i = Some s' -> loop_inv s'.
Proof.
  unfold loop_inv. intros (Hg & Hn & Hi) H.
  step_cases H;
    repeat match goal with
           | E : at_pc _ = _ |- _ => rewrite E in *; cbn in *
           end;
    repeat split; intros; try congruence; try lia;
    auto using term_resize_rows.
Qed.

Lemma start_loop_inv (opts : list getopt) : loop_inv (start opts).
Proof.
  unfold loop_inv.
  destruct (start_pc opts) as [E | [st E]]; rewrite E; cbn;
    repeat split; intros; discriminate.
Qed.

Lemma main_loop_inv (opts : list getopt) (ins : list input) (s : state) :
  main opts ins = Some s -> loop_inv s.
Proof.
  apply (run_invariant loop_inv step_loop_inv). apply start_loop_inv.
Qed.

(** ** The renderer *)

Lemma step_rows_head_inv (s : state) (i : input) (s' : state) :
  rows_head_inv s -> step s i = Some s' -> rows_head_inv s'.
Proof.
  unfold rows_head_inv. intros Hinv H.
  step_cases H;
    repeat match goal with
           | E : at_pc ?s = _ |- context [at_pc ?s] => rewrite E
           end;
    try match goal with
        | E : at_pc _ = _ |- _ => rewrite E in Hinv
        end;
    auto; try congruence.
  - rewrite Heqb. split; [lia|]. intros _.
    match goal with
    | |- exists t st0, (((?t0 ++ summary_lines _ ?st1) ++ _) ++ _) ++ _ = _ =>
        exists t0, st1
    end.
    unfold header_events. now rewrite <- !app_assoc.
  - rewrite Heqb. split; [lia|]. intros _.
    match goal with
    | |- exists t st0, (((?t0 ++ summary_lines _ ?st1) ++ _) ++ _) ++ _ = _ =>
        exists t0, st1
    end.
    unfold header_events. now rewrite <- !app_assoc.
  - destruct Hinv as [Hi0 _]. split; [lia | intros; lia].
Qed.

Lemma main_rows_head_inv (opts : list getopt) (ins : list input) (s : state) :
  main opts ins = Some s -> rows_head_inv s.
Proof.
  apply (run_invariant rows_head_inv step_rows_head_inv).
  unfold rows_head_inv.
  destruct (start_pc opts) as [E | [st E]]; now rewrite E.
Qed.

(** The interactive row loop, left to itself from index [i]: [k] more
    rows fit, [k] rows are printed, then the frame is flushed. *)
Lemma rows_loop (k : nat) : forall (s : state) (i : Z),
  at_pc s = At_rows i -> 0 <= i ->
  i + Z.of_nat k = Z.min (Rows (geom s) - 8) (nr_slabs s) ->
  exists s' rows,
    run s (repeat In_tau (S k)) = Some s' /\
    at_pc s' = At_select /\
    trace s' = trace s ++ rows ++ [Ev_refresh] /\
    forallb is_details rows = true /\
    List.length rows = k.
Proof.
  induction k as [|k IH]; intros s i Hpc Hi Hk.
  - exists (goto At_select (set_tv_sec (Delay s) (emit [Ev_refresh] s))), [].
    cbn [repeat run]. unfold step. rewrite Hpc.
    replace ((i <? Rows (geom s) - 8) && (i <? nr_slabs s)) with false.
    + repeat split.
    + symmetry. apply andb_false_iff.
      destruct (Z.ltb_spec i (Rows (geom s) - 8)); [|now left].
      right. apply Z.ltb_ge. lia.
  - set (s1 := goto (At_rows (i + 1)) (print_details (v_at s i) s)).
    destruct (IH s1 (i + 1)) as (s' & rows & Hrun & Hpc' & Htr & Hall & Hlen).
    + reflexivity.
    + lia.
    + cbn. lia.
    + exists s', (details_line (Run_once s) (v_at s i) :: rows).
      split; [|split; [|split; [|split]]].
      * change (repeat In_tau (S (S k))) with (In_tau :: repeat In_tau (S k)).
        cbn [run]. unfold step at 1. rewrite Hpc.
        replace ((i <? Rows (geom s) - 8) && (i <? nr_slabs s)) with true.
        -- exact Hrun.
        -- symmetry. apply andb_true_iff. split; apply Z.ltb_lt; lia.
      * exact Hpc'.
      * rewrite Htr. cbn. now rewrite <- app_assoc.
      * cbn [forallb]. rewrite Hall. now destruct (Run_once s).
      * cbn. now rewrite Hlen.
Qed.

Lemma step_rows_progress_inv (s0 s : state) (i : input) (s' : state) :
  row_loop_input i = true ->
  rows_progress_inv s0 s -> step s i = Some s' -> rows_progress_inv s0 s'.
Proof.
  intros Hi [Hsel | (k & rows & Hpc & Hk & Hn & Ho & Htr & Hall & Hlen)] H;
    unfold step in H; [rewrite Hsel in H | rewrite Hpc in H];
    destruct i; try discriminate Hi; try discriminate H;
    try (destruct (handlers s); [|discriminate H]);
    injection H as <-.
  - left. exact Hsel.
  - left. exact Hsel.
  - destruct ((k <? Rows (geom s) - 8) && (k <? nr_slabs s)) eqn:E.
    + right. apply andb_true_iff in E. destruct E as [_ E].
      apply Z.ltb_lt in E.
      exists (k + 1), (rows ++ [details_line false (v_at s k)]).
      cbn. rewrite Ho, Htr, <- app_assoc, forallb_app, Hall, length_app.
      cbn. repeat split; try lia; auto.
    + left. reflexivity.
  - right. exists k, rows. cbn. auto 10.
  - right. exists k, rows. cbn. auto 10.
Qed.

Lemma step_rows_room_inv (s0 s : state) (i : input) (s' : state) :
  row_loop_input i && not_SIGWINCH i = true ->
  rows_room_inv s0 s -> step s i = Some s' -> rows_room_inv s0 s'.
Proof.
  intros Hi [Hg Hr] H. unfold rows_room_inv.
  unfold step in H.
  destruct (at_pc s) eqn:Hpc; destruct i; try discriminate Hi;
    try discriminate H;
    try (destruct (handlers s); [|discriminate H]);
    injection H as <-;
    unfold cleanup, sigint_handler;
    repeat match goal with
           | |- context [if ?b then _ else _] => destruct b eqn:?
           end;
    cbn; (split; [exact Hg|]); intros j Hj; try discriminate Hj;
    try (apply Hr; congruence).
  injection Hj as <-. rewrite Hg in *.
  apply andb_true_iff in Heqb. destruct Heqb as [Hb _].
  apply Z.ltb_lt in Hb. lia.
Qed.

(** Whatever signals land in the row loop: when it is left, the rows
    drawn are at least what the height at that moment admits and at most
    the live count; without a window change they are exactly
    min(Rows - 8, nr_slabs). *)
Lemma rows_under_signals (s : state) (ins : list input) (s' : state) :
  at_pc s = At_rows 0 -> Run_once s = false ->
  0 <= nr_slabs s -> 10 < Rows (geom s) ->
  forallb row_loop_input ins = true ->
  run s (ins ++ [In_tau]) = Some s' -> at_pc s' = At_select ->
  exists rows,
    trace s' = trace s ++ rows ++ [Ev_refresh] /\
    forallb is_details rows = true /\
    Z.min (Rows (geom s') - 8) (nr_slabs s) <= Z.of_nat (List.length rows)
    <= nr_slabs s /\
    (forallb not_SIGWINCH ins = true ->
     Z.of_nat (List.length rows) = Z.min (Rows (geom s) - 8) (nr_slabs s)).
Proof.
  intros Hpc Ho Hn Hg Hins Hrun Hsel.
  rewrite run_app in Hrun.
  destruct (run s ins) as [s1|] eqn:Hrun1; [|discriminate Hrun].
  cbn [run] in Hrun.
  destruct (step s1 In_tau) as [s2|] eqn:Hstep; [|discriminate Hrun].
  injection Hrun as ->.
  assert (Hinv : rows_progress_inv s s1).
  { apply (run_invariant_on row_loop_input (rows_progress_inv s)
             (fun a i b Hi => step_rows_progress_inv s a i b Hi)
             ins s s1 Hins); [|exact Hrun1].
    right. exists 0, []. rewrite app_nil_r. repeat split; auto; lia. }
  destruct Hinv as [Hs1 | (k & rows & Hpc1 & Hk & Hn1 & Ho1 & Htr & Hall & Hlen)].
  { unfold step in Hstep. rewrite Hs1 in Hstep. discriminate Hstep. }
  unfold step in Hstep. rewrite Hpc1 in Hstep.
  destruct ((k <? Rows (geom s1) - 8) && (k <? nr_slabs s1)) eqn:E;
    injection Hstep as <-; [discriminate Hsel|].
  exists rows. cbn [trace goto set_tv_sec emit geom].
  split; [rewrite Htr; now rewrite <- app_assoc|].
  split; [exact Hall|].
  apply andb_false_iff in E. rewrite Hn1 in E.
  split.
  - destruct E as [E | E]; apply Z.ltb_ge in E; lia.
  - intros Hnw.
    assert (Hroom : rows_room_inv s s1).
    { apply (run_invariant_on
               (fun i => row_loop_input i && not_SIGWINCH i)
               (rows_room_inv s)
               (fun a i b Hi => step_rows_room_inv s a i b Hi)
               ins s s1); [| |exact Hrun1].
      - clear - Hins Hnw. induction ins as [|i ins IH]; [reflexivity|].
        cbn in *. apply andb_true_iff in Hins, Hnw.
        destruct Hins as [-> Hins], Hnw as [-> Hnw]. cbn. now apply IH.
      - split; [reflexivity|]. intros j Hj. rewrite Hpc in Hj.
        injection Hj as <-. lia. }
    destruct Hroom as [Hg1 Hr1]. specialize (Hr1 k Hpc1).
    rewrite Hg1 in E.
    destruct E as [E | E]; apply Z.ltb_ge in E; lia.
Qed.

(** C5, as the program has it.  At the head of the interactive row loop
    the summary and the header are the last things on the screen.  Left
    to itself the loop prints exactly min(Rows - 8, nr_slabs) data rows
    and then flushes the frame; so it does under every arrival of
    signals that brings no window change.  Line 349 reads [Rows] afresh
    at every turn: when window changes land inside the loop the rows
    printed are at least min(Rows' - 8, nr_slabs), for the height
    [Rows'] at the moment the loop is left, and never more than
    nr_slabs. *)
Theorem interactive_rows_are_min_unless_resized
  (opts : list getopt) (ins : list input) (s : state) :
  main opts ins = Some s -> at_pc s = At_rows 0 ->
  (exists s' top st rows,
     trace s = top ++ summary_lines false st ++ header_events /\
     run s (repeat In_tau
              (S (Z.to_nat (Z.min (Rows (geom s) - 8) (nr_slabs s))))) = Some s' /\
     at_pc s' = At_select /\
     trace s' = trace s ++ rows ++ [Ev_refresh] /\
     forallb is_details rows = true /\
     Z.of_nat (List.length rows) = Z.min (Rows (geom s) - 8) (nr_slabs s) /\
     count is_details (trace s') - count is_details (trace s)
     = Z.min (Rows (geom s) - 8) (nr_slabs s)) /\
  (forall (sigs : list input) (s' : state),
     forallb row_loop_input sigs = true ->
     run s (sigs ++ [In_tau]) = Some s' -> at_pc s' = At_select ->
     exists rows,
       trace s' = trace s ++ rows ++ [Ev_refresh] /\
       forallb is_details rows = true /\
       Z.min (Rows (geom s') - 8) (nr_slabs s) <= Z.of_nat (List.length rows)
       <= nr_slabs s /\
       (forallb not_SIGWINCH sigs = true ->
        Z.of_nat (List.length rows)
        = Z.min (Rows (geom s) - 8) (nr_slabs s))).
Proof.
  intros Hmain Hpc.
  pose proof (main_loop_inv _ _ _ Hmain) as (Hg & Hn & Hi).
  pose proof (main_rows_head_inv _ _ _ Hmain) as Hh.
  unfold rows_head_inv in Hh. rewrite Hpc in *. cbn in Hg, Hn, Hi.
  destruct Hh as [_ Hh]. destruct (Hh eq_refl) as (top & st & Htop).
  specialize (Hg eq_refl (Hi eq_refl)). specialize (Hn eq_refl).
  split.
  - set (n := Z.min (Rows (geom s) - 8) (nr_slabs s)).
    assert (Hn0 : 0 <= n) by (unfold n; lia).
    destruct (rows_loop (Z.to_nat n) s 0 Hpc (Z.le_refl 0))
      as (s' & rows & Hrun & Hpc' & Htr & Hall & Hlen).
    { fold n. lia. }
    exists s', top, st, rows.
    repeat (split; [assumption|]).
    assert (Hrows : Z.of_nat (List.length rows) = n) by (rewrite Hlen; lia).
    split; [exact Hrows|].
    unfold count. rewrite Htr, !filter_app, !length_app. cbn [filter is_details].
    assert (Hf : filter is_details rows = rows).
    { clear - Hall. induction rows as [|r rows IH]; cbn in *; [reflexivity|].
      apply andb_true_iff in Hall. destruct Hall as [-> Hall].
      now rewrite IH. }
    rewrite Hf. cbn [List.length]. lia.
  - intros sigs s' Hsigs Hrun Hsel.
    exact (rows_under_signals s sigs s' Hpc (Hi eq_refl) Hn Hg Hsigs Hrun Hsel).
Qed.

Lemma interactive_rows_are_min_unless_resized_witness :
  main [] sample_interactive = Some sample_at_rows /\
  at_pc sample_at_rows = At_rows 0 /\
  (exists s' top st rows,
     trace sample_at_rows = top ++ summary_lines false st ++ header_events /\
     run sample_at_rows
       (repeat In_tau
          (S (Z.to_nat (Z.min (Rows (geom sample_at_rows) - 8)
                              (nr_slabs sample_at_rows))))) = Some s' /\
     at_pc s' = At_select /\
     trace s' = trace sample_at_rows ++ rows ++ [Ev_refresh] /\
     forallb is_details rows = true /\
     Z.of_nat (List.length rows)
     = Z.min (Rows (geom sample_at_rows) - 8) (nr_slabs sample_at_rows) /\
     count is_details (trace s') - count is_details (trace sample_at_rows)
     = Z.min (Rows (geom sample_at_rows) - 8) (nr_slabs sample_at_rows)) /\
  (forall (sigs : list input) (s' : state),
     forallb row_loop_input sigs = true ->
     run sample_at_rows (sigs ++ [In_tau]) = Some s' -> at_pc s' = At_select ->
     exists rows,
       trace s' = trace sample_at_rows ++ rows ++ [Ev_refresh] /\
       forallb is_details rows = true /\
       Z.min (Rows (geom s') - 8) (nr_slabs sample_at_rows)
       <= Z.of_nat (List.length rows) <= nr_slabs sample_at_rows /\
       (forallb not_SIGWINCH sigs = true ->
        Z.of_nat (List.length rows)
        = Z.min (Rows (geom sample_at_rows) - 8) (nr_slabs sample_at_rows))).
Proof.
  assert (H1 : main [] sample_interactive = Some sample_at_rows)
    by (vm_compute; reflexivity).
  assert (H2 : at_pc sample_at_rows = At_rows 0) by (vm_compute; reflexivity).
  split; [exact H1|]. split; [exact H2|].
  exact (interactive_rows_are_min_unless_resized
           [] sample_interactive sample_at_rows H1 H2).
Defined.

(** C5, as stated, fails.  On a 50-row terminal with thirty live caches
    the cycle starts with room for 42 rows; after ten rows are drawn the
    window shrinks to 12 rows, and the next turn of the loop, which reads
    [Rows] again, leaves it: ten rows are on the screen, neither
    min(42, 30) nor min(4, 30). *)
Lemma interactive_rows_follow_a_resize :
  main [] sample_tall = Some sample_tall_at_rows /\
  at_pc sample_tall_at_rows = At_rows 0 /\
  run sample_tall_at_rows sample_shrink = Some sample_shrunk /\
  at_pc sample_shrunk = At_select /\
  count is_details (trace sample_shrunk)
  - count is_details (trace sample_tall_at_rows) = 10 /\
  Z.min (Rows (geom sample_tall_at_rows) - 8) (nr_slabs sample_tall_at_rows)
  = 30 /\
  Z.min (Rows (geom sample_shrunk) - 8) (nr_slabs sample_shrunk) = 4.
Proof.
  repeat split; vm_compute; reflexivity.
Qed.

(** ** Traces *)

Lemma count_app (p : event -> bool) (a b : list event) :
  count p (a ++ b) = count p a + count p b.
Proof. unfold count. rewrite filter_app, length_app. lia. Qed.

(** Counting over a trace given as appended pieces. *)
Ltac count_events :=
  unfold summary_lines, headings_line, details_line, PRINT_line;
  rewrite ?count_app; cbn.

Lemma count_none (p : event -> bool) (t : list event) :
  forallb (fun e => negb (p e)) t = true -> count p t = 0.
Proof.
  unfold count. induction t as [|e t IH]; cbn; [reflexivity|].
  intros H. apply andb_true_iff in H. destruct H as [He Ht].
  destruct (p e); [discriminate|]. now apply IH.
Qed.

Lemma parse_opt_trace (o : getopt) (s : state) :
  exists es, trace (parse_opt o s) = trace s ++ es /\
             forallb parse_event es = true.
Proof.
  destruct o as [[d|] | optarg | | | | ]; cbn; try destruct (d <? 1); cbn;
    try (eexists; split; [reflexivity | reflexivity]);
    exists []; now rewrite app_nil_r.
Qed.

Lemma parse_opts_trace (opts : list getopt) : forall s,
  exists es, trace (parse_opts opts s) = trace s ++ es /\
             forallb parse_event es = true.
Proof.
  induction opts as [|o rest IH]; intros s; cbn [parse_opts].
  - exists []. now rewrite app_nil_r.
  - destruct (parse_opt_trace o s) as (es & Hes & Hall).
    destruct (exited (parse_opt o s)); [now exists es|].
    destruct (IH (parse_opt o s)) as (es' & Hes' & Hall').
    exists (es ++ es'). rewrite Hes', Hes, app_assoc. split; [reflexivity|].
    now rewrite forallb_app, Hall, Hall'.
Qed.

Lemma parse_events_no_wait (d : Z) (es : list event) :
  forallb parse_event es = true -> waits_are d es.
Proof.
  unfold waits_are. induction es as [|e es IH]; cbn; intros H; constructor.
  - apply andb_true_iff in H. now destruct e.
  - apply IH. now apply andb_true_iff in H.
Qed.

Lemma parse_events_no_fetch (es : list event) :
  forallb parse_event es = true -> count is_fetch es = 0.
Proof.
  intros H. apply count_none. induction es as [|e es IH]; cbn in *; auto.
  apply andb_true_iff in H. destruct H as [He Hes].
  rewrite (IH Hes), andb_true_r. now destruct e.
Qed.

(** ** The delay *)

Lemma parse_opt_keeps_delay (o : getopt) (s : state) :
  sets_delay o = false ->
  Delay (parse_opt o s) = Delay s /\ Run_once (parse_opt o s) = Run_once s.
Proof. destruct o; cbn; intros H; (discriminate || now split). Qed.

Lemma parse_opts_keeps_delay (opts : list getopt) : forall s,
  forallb (fun o => negb (sets_delay o)) opts = true ->
  Delay (parse_opts opts s) = Delay s /\
  Run_once (parse_opts opts s) = Run_once s.
Proof.
  induction opts as [|o rest IH]; intros s H; cbn in *; [now split|].
  apply andb_true_iff in H. destruct H as [Ho Hrest].
  apply negb_true_iff in Ho.
  destruct (parse_opt_keeps_delay o s Ho) as [Hd Hr].
  destruct (exited (parse_opt o s)); [now split|].
  destruct (IH (parse_opt o s) Hrest) as [Hd' Hr']. split; congruence.
Qed.

Lemma step_delay_inv (d : Z) (s : state) (i : input) (s' : state) :
  not_SIGINT i = true -> delay_inv d s -> step s i = Some s' -> delay_inv d s'.
Proof.
  unfold delay_inv, waits_are. intros Hi (Hd & Hw & Ht) H.
  step_cases H; try discriminate;
    repeat match goal with
           | E : at_pc ?s = _ |- context [at_pc ?s] => rewrite E
           end;
    (split; [reflexivity|]); (split; [|try discriminate; auto]);
    unfold summary_lines, headings_line, details_line, PRINT_line;
    rewrite ?Forall_app; repeat split; auto; repeat constructor; auto.
Qed.

(** C10. Started with neither [-d] nor [-o], the program is interactive
    with [Delay = 3]; as long as no interrupt arrives the delay stays 3
    and every bounded wait of the loop is a [select] with a timeout of
    exactly 3 seconds. *)
Theorem default_delay_is_three_seconds
  (opts : list getopt) (ins : list input) (s : state) :
  forallb (fun o => negb (sets_delay o)) opts = true ->
  forallb not_SIGINT ins = true ->
  main opts ins = Some s ->
  Delay (start opts) = 3 /\ Run_once (start opts) = false /\
  Delay s = 3 /\ waits_are 3 (trace s) /\
  (at_pc s = At_select -> forall r, exists s',
      step s (In_select r) = Some s' /\
      trace s' = trace s ++ [Ev_select 3]).
Proof.
  intros Hopts Hins Hmain.
  destruct (parse_opts_keeps_delay opts initial Hopts) as [Hd Hr].
  fold (start opts) in Hd, Hr. cbn in Hd, Hr.
  assert (Hinv : delay_inv 3 s).
  { apply (run_invariant_on not_SIGINT (delay_inv 3) (step_delay_inv 3)
             ins (start opts) s Hins); [|exact Hmain].
    split; [exact Hd|]. split.
    - destruct (parse_opts_trace opts initial) as (es & Hes & Hall).
      unfold start. rewrite Hes. cbn. now apply parse_events_no_wait.
    - intros Hpc. destruct (start_pc opts) as [E | [st E]]; congruence. }
  destruct Hinv as (Hds & Hw & Htv).
  repeat (split; [assumption|]).
  intros Hpc r. unfold step. rewrite Hpc. cbn. rewrite (Htv Hpc).
  destruct (0 <? r); eexists; split; reflexivity.
Qed.

Lemma default_delay_is_three_seconds_witness :
  Delay (start []) = 3 /\ Run_once (start []) = false /\
  Delay sample_at_select = 3 /\ waits_are 3 (trace sample_at_select) /\
  (at_pc sample_at_select = At_select -> forall r, exists s',
      step sample_at_select (In_select r) = Some s' /\
      trace s' = trace sample_at_select ++ [Ev_select 3]).
Proof.
  apply (default_delay_is_three_seconds
           [] (sample_interactive ++ repeat In_tau 5));
    vm_compute; reflexivity.
Defined.

(** ** Keystrokes *)

Lemma quit_test (n c : Z) :
  negb (n =? 1) || ((c =? chr "Q") || (c =? chr "q")) = true <->
  n <> 1 \/ c = chr "Q" \/ c = chr "q".
Proof.
  rewrite !orb_true_iff, negb_true_iff, Z.eqb_neq, !Z.eqb_eq. tauto.
Qed.

Lemma cleanup_exits (s : state) :
  step (goto At_cleanup s) In_tau = Some (cleanup (goto At_cleanup s)) /\
  at_pc (cleanup (goto At_cleanup s)) = Exited (rc s).
Proof.
  split; [reflexivity|]. unfold cleanup. cbn.
  now destruct (Run_once s), (is_tty s).
Qed.

(** The two ways out of line 359. *)
Lemma step_read (s : state) (n c : Z) :
  at_pc s = At_read ->
  (n <> 1 \/ c = chr "Q" \/ c = chr "q" ->
     step s (In_read n c) = Some (goto At_cleanup (emit [Ev_read] s))) /\
  (n = 1 /\ c <> chr "Q" /\ c <> chr "q" ->
     step s (In_read n c)
     = Some (goto At_while
               (set_Sort_item (set_sort_item c) (emit [Ev_read] s)))).
Proof.
  intros Hpc. unfold step. rewrite Hpc.
  destruct (negb (n =? 1) || ((c =? chr "Q") || (c =? chr "q"))) eqn:E.
  - split; [reflexivity|]. apply quit_test in E. tauto.
  - split; [|reflexivity]. intros H. apply quit_test in H. congruence.
Qed.

(** C7. Once a byte is ready, a failed or empty [read] and the bytes
    'q' and 'Q' leave the loop (the program goes on to clean up and
    exit, the Sort Field untouched); every other byte is handed to
    [set_sort_item], its result becomes the Sort Field, and the loop
    goes on to its repeat condition, which starts the next cycle unless
    an interrupt has zeroed the delay. *)
Theorem keystroke_quits_or_resorts (s : state) (n c : Z) :
  at_pc s = At_read ->
  (n <> 1 \/ c = chr "Q" \/ c = chr "q" ->
     exists s' s'',
       step s (In_read n c) = Some s' /\
       at_pc s' = At_cleanup /\ Sort_item s' = Sort_item s /\
       step s' In_tau = Some s'' /\ at_pc s'' = Exited (rc s)) /\
  (n = 1 /\ c <> chr "Q" /\ c <> chr "q" ->
     exists s',
       step s (In_read n c) = Some s' /\
       at_pc s' = At_while /\ Sort_item s' = set_sort_item c /\
       Delay s' = Delay s /\
       (Delay s <> 0 -> step s' In_tau = Some (goto At_fill s'))).
Proof.
  intros Hpc. destruct (step_read s n c Hpc) as [Hquit Hkey]. split.
  - intros H. eexists _, _. split; [exact (Hquit H)|].
    destruct (cleanup_exits (emit [Ev_read] s)) as [Hc He].
    split; [reflexivity|]. split; [reflexivity|]. split; [exact Hc | exact He].
  - intros H. eexists. split; [exact (Hkey H)|].
    repeat split. intros Hd. unfold step. cbn.
    apply Z.eqb_neq in Hd. now rewrite Hd.
Qed.

Lemma keystroke_quits_or_resorts_witness :
  (exists s' s'',
     step sample_at_read (In_read 1 (chr "q")) = Some s' /\
     at_pc s' = At_cleanup /\ Sort_item s' = Sort_item sample_at_read /\
     step s' In_tau = Some s'' /\ at_pc s'' = Exited (rc sample_at_read)) /\
  (exists s',
     step sample_at_read (In_read 1 (chr "u")) = Some s' /\
     at_pc s' = At_while /\ Sort_item s' = set_sort_item (chr "u") /\
     Delay s' = Delay sample_at_read /\
     (Delay sample_at_read <> 0 ->
      step s' In_tau = Some (goto At_fill s'))).
Proof.
  assert (Hpc : at_pc sample_at_read = At_read) by (vm_compute; reflexivity).
  split.
  - apply (keystroke_quits_or_resorts sample_at_read 1 (chr "q") Hpc).
    right. right. reflexivity.
  - apply (keystroke_quits_or_resorts sample_at_read 1 (chr "u") Hpc).
    repeat split; discriminate.
Defined.

(** C1, as the program has it. An unrecognized sort character does not
    keep the Sort Field: it selects [DEFAULT_SORT], whatever the field
    was, on the command line at every [-s] and at every keystroke that
    is read and is not 'q' or 'Q'. *)
Theorem unrecognized_sort_char_selects_default (c : Z) :
  recognized c = false ->
  (forall optarg s,
     first_char optarg = c ->
     Sort_item (parse_opt (Opt_s optarg) s) = DEFAULT_SORT) /\
  (forall s,
     at_pc s = At_read -> c <> chr "Q" -> c <> chr "q" ->
     exists s', step s (In_read 1 c) = Some s' /\
                at_pc s' = At_while /\ Sort_item s' = DEFAULT_SORT).
Proof.
  intros Hc. split.
  - intros optarg s <-. cbn. now apply unrecognized_is_default.
  - intros s Hpc HQ Hq.
    destruct (step_read s 1 c Hpc) as [_ Hkey].
    eexists. split; [apply Hkey; tauto|]. split; [reflexivity|].
    cbn. now apply unrecognized_is_default.
Qed.

Lemma unrecognized_sort_char_selects_default_witness :
  (forall optarg s,
     first_char optarg = chr "x" ->
     Sort_item (parse_opt (Opt_s optarg) s) = DEFAULT_SORT) /\
  (forall s,
     at_pc s = At_read -> chr "x" <> chr "Q" -> chr "x" <> chr "q" ->
     exists s', step s (In_read 1 (chr "x")) = Some s' /\
                at_pc s' = At_while /\ Sort_item s' = DEFAULT_SORT).
Proof.
  apply (unrecognized_sort_char_selects_default (chr "x")). reflexivity.
Defined.

(** C1, as stated, fails. After [-s n] the Sort Field is the name; the
    unrecognized keystroke 'x', and likewise a second [-s x] on the
    command line, turns it into the object count instead of leaving it
    alone. *)
Lemma unrecognized_sort_char_changes_field :
  main [Opt_s "n"] sample_until_read = Some sample_at_read /\
  at_pc sample_at_read = At_read /\
  Sort_item sample_at_read = PROCPS_SLABNODE_NAME /\
  recognized (chr "x") = false /\
  (exists s', step sample_at_read (In_read 1 (chr "x")) = Some s' /\
              Sort_item s' = PROCPS_SLABNODE_OBJS /\
              Sort_item s' <> Sort_item sample_at_read) /\
  Sort_item (start [Opt_s "n"]) = PROCPS_SLABNODE_NAME /\
  Sort_item (start [Opt_s "n"; Opt_s "x"]) = PROCPS_SLABNODE_OBJS.
Proof.
  split; [vm_compute; reflexivity|].
  split; [vm_compute; reflexivity|].
  split; [vm_compute; reflexivity|].
  split; [vm_compute; reflexivity|].
  split; [|split; vm_compute; reflexivity].
  eexists. split; [vm_compute; reflexivity|].
  split; [reflexivity | discriminate].
Qed.

(** ** The interrupt *)

Lemma step_interrupted_inv (pending : bool) (n : Z)
  (s : state) (i : input) (s' : state) :
  interrupted_inv pending n s -> step s i = Some s' ->
  interrupted_inv pending n s'.
Proof.
  unfold interrupted_inv. intros [Hd Hc] H.
  step_cases H;
    repeat match goal with
           | E : at_pc ?s = _ |- context [at_pc ?s] => rewrite E
           end;
    try match goal with
        | E : at_pc _ = _ |- _ => rewrite E in Hc
        end;
    try contradiction; try (split; [assumption || reflexivity | assumption]);
    try (split; [assumption|]; count_events; lia).
  all: try (split; reflexivity).
  all: destruct Hc as [Hp Hc]; split; [reflexivity|]; try (now split);
    count_events; lia.
Qed.

(** Outside the repeat condition the next program point does not depend
    on the delay. *)
Lemma step_pc_ignores_Delay (s : state) (d : Z) (i : input) :
  at_pc s <> At_while ->
  option_map at_pc (step (set_Delay d s) i) = option_map at_pc (step s i).
Proof.
  intros Hpc. unfold step. cbn.
  destruct (at_pc s) eqn:E; try contradiction; destruct i; try reflexivity;
    unfold render_top, print_summary, exit_with, exited; cbn; rewrite ?E;
    repeat (match goal with
            | |- context [if ?b then _ else _] =>
                lazymatch b with
                | context [if _ then _ else _] => fail
                | _ => destruct b eqn:?
                end
            | |- context [match ?a with Some _ => _ | None => _ end] =>
                destruct a
            end; cbn; rewrite ?E);
    reflexivity.
Qed.

(** C6. The SIGINT handler sets [Delay] to zero and nothing else; the
    loop decides on [Delay] at its repeat condition only; so once an
    interrupt has arrived inside a cycle the delay stays zero, the
    repeat condition sends the program to the cleanup, and no fetch is
    started after the one of the cycle in flight. *)
Theorem interrupt_ends_loop_without_new_fetch
  (s : state) (ins : list input) (s' : state) :
  in_cycle (at_pc s) = true ->
  run s (In_SIGINT :: ins) = Some s' ->
  step s In_SIGINT = Some (set_Delay 0 s) /\
  (forall d i, at_pc s <> At_while ->
     option_map at_pc (step (set_Delay d s) i) = option_map at_pc (step s i)) /\
  Delay s' = 0 /\
  (at_pc s' = At_while -> step s' In_tau = Some (goto At_cleanup s')) /\
  count is_fetch (trace s')
  <= count is_fetch (trace s) + (if at_fill (at_pc s) then 1 else 0) /\
  (at_fill (at_pc s) = false ->
     at_pc s' <> At_fill /\
     count is_fetch (trace s') = count is_fetch (trace s)).
Proof.
  intros Hcyc Hrun. cbn [run] in Hrun.
  assert (Hsig : step s In_SIGINT = Some (set_Delay 0 s)).
  { assert (Hh : handlers s = true).
    { destruct (handlers s) eqn:Eh; [reflexivity|]. exfalso.
      revert Hrun. unfold step. rewrite Eh.
      destruct (at_pc s); discriminate. }
    unfold step. rewrite Hh.
    destruct (at_pc s); try discriminate Hcyc; reflexivity. }
  rewrite Hsig in Hrun.
  split; [exact Hsig|].
  split; [intros d i Hpc; now apply step_pc_ignores_Delay|].
  set (n := count is_fetch (trace s) + (if at_fill (at_pc s) then 1 else 0)).
  assert (Hinv : interrupted_inv (at_fill (at_pc s)) n s').
  { apply (run_invariant _ (step_interrupted_inv (at_fill (at_pc s)) n)
             ins (set_Delay 0 s) s'); [|exact Hrun].
    unfold interrupted_inv, n. cbn. split; [reflexivity|].
    destruct (at_pc s); cbn in *; try discriminate; try split; lia. }
  destruct Hinv as [Hd Hc].
  split; [exact Hd|].
  split.
  { intros Hpc. unfold step. rewrite Hpc, Hd. reflexivity. }
  split.
  { destruct (at_pc s'); try contradiction; lia. }
  intros Hf. unfold n in Hc. rewrite Hf in Hc.
  destruct (at_pc s'); try contradiction; try (destruct Hc; discriminate);
    split; try discriminate; lia.
Qed.

Lemma interrupt_ends_loop_without_new_fetch_witness :
  step sample_at_select In_SIGINT = Some (set_Delay 0 sample_at_select) /\
  (forall d i, at_pc sample_at_select <> At_while ->
     option_map at_pc (step (set_Delay d sample_at_select) i)
     = option_map at_pc (step sample_at_select i)) /\
  Delay sample_after_interrupt = 0 /\
  (at_pc sample_after_interrupt = At_while ->
     step sample_after_interrupt In_tau
     = Some (goto At_cleanup sample_after_interrupt)) /\
  count is_fetch (trace sample_after_interrupt)
  <= count is_fetch (trace sample_at_select)
     + (if at_fill (at_pc sample_at_select) then 1 else 0) /\
  (at_fill (at_pc sample_at_select) = false ->
     at_pc sample_after_interrupt <> At_fill /\
     count is_fetch (trace sample_after_interrupt)
     = count is_fetch (trace sample_at_select)).
Proof.
  apply (interrupt_ends_loop_without_new_fetch
           sample_at_select sample_interrupted_wait sample_after_interrupt);
    vm_compute; reflexivity.
Defined.

(** ** One-shot mode *)

Lemma step_once_inv (s : state) (i : input) (s' : state) :
  once_inv s -> step s i = Some s' -> once_inv s'.
Proof.
  unfold once_inv. intros [Ho Hc] H.
  step_cases H;
    repeat match goal with
           | E : at_pc ?s = _ |- context [at_pc ?s] => rewrite E
           end;
    try match goal with
        | E : at_pc _ = _ |- _ => rewrite E in Hc
        end;
    try contradiction; try congruence;
    try (split; [assumption|]; count_events; lia).
Qed.

Lemma start_once_inv (opts : list getopt) :
  Run_once (start opts) = true -> once_inv (start opts).
Proof.
  intros Ho. split; [exact Ho|].
  destruct (parse_opts_trace opts initial) as (es & Hes & Hall).
  assert (Hc : count is_fetch (trace (start opts)) = 0).
  { unfold start. rewrite Hes. cbn [trace initial app].
    now apply parse_events_no_fetch. }
  destruct (start_pc opts) as [E | [st E]]; rewrite E; lia.
Qed.

(** The one-shot row loop from index [i]: [k] rows are left, [k] rows
    are printed, the loop breaks, the cleanup runs and [main] returns
    [rc]. *)
Lemma rows_once_loop (k : nat) : forall (s : state) (i : Z),
  at_pc s = At_rows_once i -> Run_once s = true -> 0 <= i ->
  i + Z.of_nat k = nr_slabs s ->
  exists s',
    run s (repeat In_tau (S (S k))) = Some s' /\
    at_pc s' = Exited (rc s) /\
    trace s' = trace s ++ rows_from (v s) i k ++ [Ev_slabinfo_unref].
Proof.
  induction k as [|k IH]; intros s i Hpc Ho Hi Hk.
  - eexists. cbn [repeat run]. unfold step at 1. rewrite Hpc.
    replace (i <? nr_slabs s) with false by (symmetry; apply Z.ltb_ge; lia).
    unfold step. cbn. unfold cleanup. cbn. rewrite Ho. cbn.
    repeat split.
  - set (s1 := goto (At_rows_once (i + 1)) (print_details (v_at s i) s)).
    destruct (IH s1 (i + 1)) as (s' & Hrun & Hpc' & Htr);
      [reflexivity | exact Ho | lia | cbn; lia |].
    exists s'. split; [|split].
    + change (repeat In_tau (S (S (S k))))
        with (In_tau :: repeat In_tau (S (S k))).
      cbn [run]. unfold step at 1. rewrite Hpc.
      replace (i <? nr_slabs s) with true by (symmetry; apply Z.ltb_lt; lia).
      exact Hrun.
    + exact Hpc'.
    + rewrite Htr. cbn. rewrite Ho, <- app_assoc. reflexivity.
Qed.

(** One step at each of the first program points, by outcome. *)
Lemma step_new (s : state) (r0 : Z) :
  at_pc s = At_new -> 0 <= r0 ->
  step s (In_slabinfo_new r0) = Some (goto At_alloc (emit [Ev_slabinfo_new] s)).
Proof.
  intros Hpc Hr0. unfold step. rewrite Hpc. cbn.
  apply Z.ltb_ge in Hr0. now rewrite Hr0.
Qed.

Lemma step_alloc (s : state) (a : list slabnode_chain) :
  at_pc s = At_alloc ->
  step s (In_chains_alloc (Some a))
  = Some (goto (if Run_once s then At_fill else At_setup)
            (set_v a (emit [Ev_chains_alloc CHAINS_ALLOC MAX_ITEMS] s))).
Proof. intros Hpc. unfold step. now rewrite Hpc. Qed.

Lemma step_fill (s : state) (nr : Z) :
  at_pc s = At_fill ->
  (0 <= nr ->
     step s (In_chains_fill nr)
     = Some (goto At_sort
               (set_nr_slabs nr (emit [Ev_chains_fill CHAINS_ALLOC] s)))) /\
  (nr < 0 ->
     step s (In_chains_fill nr)
     = Some (fail_and_break "Unable to get slabinfo node data"
               (set_nr_slabs nr (emit [Ev_chains_fill CHAINS_ALLOC] s)))).
Proof.
  intros Hpc. unfold step. rewrite Hpc. cbn [nr_slabs set_nr_slabs].
  split; intros H.
  - apply Z.ltb_ge in H. now rewrite H.
  - apply Z.ltb_lt in H. now rewrite H.
Qed.

Lemma step_sort (s : state) :
  at_pc s = At_sort ->
  (forall a,
     step s (In_chains_sort (Some a))
     = Some (goto At_render
               (set_v a (emit [Ev_chains_sort (nr_slabs s) (Sort_item s)] s)))) /\
  step s (In_chains_sort None)
  = Some (fail_and_break "Unable to sort slab nodes"
            (set_v [] (emit [Ev_chains_sort (nr_slabs s) (Sort_item s)] s))).
Proof. intros Hpc. unfold step. rewrite Hpc. now split. Qed.

Lemma step_cleanup (s : state) :
  at_pc s = At_cleanup -> step s In_tau = Some (cleanup s).
Proof. intros Hpc. unfold step. now rewrite Hpc. Qed.

(** A run up to the top of the loop body in one-shot mode, and up to the
    renderer when the fetch and the sort succeed. *)
Lemma once_until_fill (opts : list getopt)
  (r0 : Z) (a0 : list slabnode_chain) :
  Run_once (start opts) = true -> exited (start opts) = false ->
  0 <= r0 ->
  exists s,
    run (start opts) [In_slabinfo_new r0; In_chains_alloc (Some a0)] = Some s /\
    at_pc s = At_fill /\ Run_once s = true /\ rc s = EXIT_SUCCESS /\
    Sort_item s = Sort_item (start opts) /\
    trace s = [Ev_slabinfo_new; Ev_chains_alloc CHAINS_ALLOC MAX_ITEMS].
Proof.
  intros Ho He Hr0.
  destruct (start_at_new opts He) as (Hpc & Htr & Hrc & _).
  eexists. split.
  - cbn [run]. rewrite (step_new _ r0 Hpc Hr0).
    rewrite step_alloc by reflexivity. reflexivity.
  - cbn [at_pc Run_once rc Sort_item trace goto emit set_v].
    rewrite Ho, Hrc, Htr. repeat split.
Qed.

Lemma once_until_render (opts : list getopt)
  (r0 : Z) (a0 : list slabnode_chain) (nr : Z) (a : list slabnode_chain) :
  Run_once (start opts) = true -> exited (start opts) = false ->
  0 <= r0 -> 0 <= nr ->
  exists s,
    run (start opts)
      [ In_slabinfo_new r0; In_chains_alloc (Some a0); In_chains_fill nr;
        In_chains_sort (Some a) ] = Some s /\
    at_pc s = At_render /\ Run_once s = true /\ rc s = EXIT_SUCCESS /\
    nr_slabs s = nr /\ v s = a /\
    trace s = [ Ev_slabinfo_new; Ev_chains_alloc CHAINS_ALLOC MAX_ITEMS;
                Ev_chains_fill CHAINS_ALLOC;
                Ev_chains_sort nr (Sort_item (start opts)) ].
Proof.
  intros Ho He Hr0 Hnr.
  destruct (once_until_fill opts r0 a0 Ho He Hr0)
    as (s1 & Hrun & Hpc & Ho1 & Hrc & Hsi & Htr).
  destruct (step_fill s1 nr Hpc) as [Hfill _].
  eexists. split.
  - change [In_slabinfo_new r0; In_chains_alloc (Some a0); In_chains_fill nr;
            In_chains_sort (Some a)]
      with ([In_slabinfo_new r0; In_chains_alloc (Some a0)]
            ++ [In_chains_fill nr; In_chains_sort (Some a)]).
    rewrite run_app, Hrun. cbn [run]. rewrite (Hfill Hnr).
    rewrite (proj1 (step_sort (goto At_sort _) eq_refl)). reflexivity.
  - cbn [at_pc Run_once rc nr_slabs v Sort_item trace goto emit set_v
           set_nr_slabs].
    rewrite Ho1, Hrc, Htr, Hsi. repeat split.
Qed.

Lemma once_render (s : state) (r : Z) (st : slabs_stats) :
  at_pc s = At_render -> Run_once s = true ->
  (0 <= r ->
     step s (In_slabs_getchain r st)
     = Some (goto (At_rows_once 0)
               (emit ([Ev_slabs_getchain] ++ summary_lines true st
                      ++ [headings_line true]) s))) /\
  (r < 0 ->
     step s (In_slabs_getchain r st)
     = Some (goto (Exited EXIT_FAILURE)
               (emit [ Ev_slabs_getchain;
                       Ev_xerrx EXIT_FAILURE "Error getting slab summary results" ]
                  s))).
Proof.
  intros Hpc Ho. unfold step. rewrite Hpc.
  unfold render_top, print_summary, print_headings, exit_with, exited.
  rewrite Ho. cbn. split; intros Hr.
  - apply Z.ltb_ge in Hr. rewrite Hr. cbn. rewrite Hpc, Ho.
    unfold goto, emit. cbn. now rewrite <- !app_assoc.
  - apply Z.ltb_lt in Hr. rewrite Hr. cbn.
    unfold goto, emit. cbn. now rewrite <- !app_assoc.
Qed.

Section OneShot.

Variable opts : list getopt.
Hypothesis Ho : Run_once (start opts) = true.
Hypothesis He : exited (start opts) = false.

Lemma once_fetches_once (ins : list input) (s : state) :
  main opts ins = Some s ->
  count is_fetch (trace s) <= 1 /\ interactive_pc (at_pc s) = false.
Proof.
  intros Hmain.
  assert (Hinv : once_inv s).
  { apply (run_invariant once_inv step_once_inv ins (start opts) s);
      [now apply start_once_inv | exact Hmain]. }
  destruct Hinv as [_ Hc].
  destruct (at_pc s); try contradiction; split; try reflexivity; lia.
Qed.

Lemma once_good_run (r0 : Z) (a0 : list slabnode_chain) (nr : Z)
  (a : list slabnode_chain) (r : Z) (st : slabs_stats) :
  0 <= r0 -> 0 <= nr -> 0 <= r ->
  exists s,
    main opts (once_inputs r0 a0 nr a r st
               ++ repeat In_tau (S (S (Z.to_nat nr)))) = Some s /\
    at_pc s = Exited EXIT_SUCCESS /\
    trace s = [ Ev_slabinfo_new; Ev_chains_alloc CHAINS_ALLOC MAX_ITEMS;
                Ev_chains_fill CHAINS_ALLOC;
                Ev_chains_sort nr (Sort_item (start opts));
                Ev_slabs_getchain ]
              ++ summary_lines true st ++ [headings_line true]
              ++ rows_from a 0 (Z.to_nat nr) ++ [Ev_slabinfo_unref].
Proof.
  intros Hr0 Hnr Hr.
  destruct (once_until_render opts r0 a0 nr a Ho He Hr0 Hnr)
    as (s1 & Hrun1 & Hpc1 & Ho1 & Hrc1 & Hnr1 & Hv1 & Htr1).
  destruct (once_render s1 r st Hpc1 Ho1) as [Hrender _].
  specialize (Hrender Hr).
  set (s2 := goto (At_rows_once 0)
               (emit ([Ev_slabs_getchain] ++ summary_lines true st
                      ++ [headings_line true]) s1)) in *.
  destruct (rows_once_loop (Z.to_nat nr) s2 0) as (s3 & Hrun3 & Hpc3 & Htr3);
    [reflexivity | exact Ho1 | lia | cbn; lia |].
  exists s3. split; [|split].
  - unfold main, once_inputs.
    change [In_slabinfo_new r0; In_chains_alloc (Some a0); In_chains_fill nr;
            In_chains_sort (Some a); In_slabs_getchain r st]
      with ([In_slabinfo_new r0; In_chains_alloc (Some a0); In_chains_fill nr;
             In_chains_sort (Some a)] ++ [In_slabs_getchain r st]).
    rewrite !run_app, Hrun1. cbn [run]. rewrite Hrender. exact Hrun3.
  - rewrite Hpc3. cbn. now rewrite Hrc1.
  - rewrite Htr3. cbn [s2 trace goto emit v]. rewrite Htr1, Hv1.
    cbn [app]. now rewrite <- !app_assoc.
Qed.

Lemma once_fetch_fails (r0 : Z) (a0 : list slabnode_chain) (nr : Z) :
  0 <= r0 -> nr < 0 ->
  exists s,
    main opts [ In_slabinfo_new r0; In_chains_alloc (Some a0);
                In_chains_fill nr; In_tau ] = Some s /\
    at_pc s = Exited EXIT_FAILURE /\ count is_fetch (trace s) = 1.
Proof.
  intros Hr0 Hnr.
  destruct (once_until_fill opts r0 a0 Ho He Hr0)
    as (s1 & Hrun & Hpc & Ho1 & Hrc & Hsi & Htr).
  destruct (step_fill s1 nr Hpc) as [_ Hfill].
  eexists. split.
  - unfold main.
    change [In_slabinfo_new r0; In_chains_alloc (Some a0); In_chains_fill nr;
            In_tau]
      with ([In_slabinfo_new r0; In_chains_alloc (Some a0)]
            ++ [In_chains_fill nr; In_tau]).
    rewrite run_app, Hrun. cbn [run]. rewrite (Hfill Hnr).
    rewrite step_cleanup by reflexivity. reflexivity.
  - unfold cleanup, fail_and_break. cbn. rewrite Ho1. cbn.
    rewrite Htr. split; reflexivity.
Qed.

Lemma once_sort_fails (r0 : Z) (a0 : list slabnode_chain) (nr : Z) :
  0 <= r0 -> 0 <= nr ->
  exists s,
    main opts [ In_slabinfo_new r0; In_chains_alloc (Some a0);
                In_chains_fill nr; In_chains_sort None; In_tau ] = Some s /\
    at_pc s = Exited EXIT_FAILURE /\ count is_fetch (trace s) = 1.
Proof.
  intros Hr0 Hnr.
  destruct (once_until_fill opts r0 a0 Ho He Hr0)
    as (s1 & Hrun & Hpc & Ho1 & Hrc & Hsi & Htr).
  destruct (step_fill s1 nr Hpc) as [Hfill _].
  eexists. split.
  - unfold main.
    change [In_slabinfo_new r0; In_chains_alloc (Some a0); In_chains_fill nr;
            In_chains_sort None; In_tau]
      with ([In_slabinfo_new r0; In_chains_alloc (Some a0)]
            ++ [In_chains_fill nr; In_chains_sort None; In_tau]).
    rewrite run_app, Hrun. cbn [run]. rewrite (Hfill Hnr).
    rewrite (proj2 (step_sort (goto At_sort _) eq_refl)).
    rewrite step_cleanup by reflexivity. reflexivity.
  - unfold cleanup, fail_and_break. cbn. rewrite Ho1. cbn.
    rewrite Htr. split; reflexivity.
Qed.

Lemma once_summary_fails (r0 : Z) (a0 : list slabnode_chain) (nr : Z)
  (a : list slabnode_chain) (r : Z) (st : slabs_stats) :
  0 <= r0 -> 0 <= nr -> r < 0 ->
  exists s,
    main opts (once_inputs r0 a0 nr a r st) = Some s /\
    at_pc s = Exited EXIT_FAILURE /\ count is_fetch (trace s) = 1.
Proof.
  intros Hr0 Hnr Hr.
  destruct (once_until_render opts r0 a0 nr a Ho He Hr0 Hnr)
    as (s1 & Hrun1 & Hpc1 & Ho1 & Hrc1 & Hnr1 & Hv1 & Htr1).
  destruct (once_render s1 r st Hpc1 Ho1) as [_ Hfail].
  specialize (Hfail Hr).
  eexists. split; [|split].
  - unfold main, once_inputs.
    change [In_slabinfo_new r0; In_chains_alloc (Some a0); In_chains_fill nr;
            In_chains_sort (Some a); In_slabs_getchain r st]
      with ([In_slabinfo_new r0; In_chains_alloc (Some a0); In_chains_fill nr;
             In_chains_sort (Some a)] ++ [In_slabs_getchain r st]).
    rewrite run_app, Hrun1. cbn [run]. rewrite Hfail. reflexivity.
  - reflexivity.
  - cbn [trace goto emit]. rewrite Htr1. reflexivity.
Qed.

End OneShot.

(** C9. In one-shot mode the program fetches once at most and never
    reaches the wait or the repeat condition, whatever the outside
    answers.  When creation, allocation, fetch, sort and summary all
    succeed it writes to the standard output the five summary lines and
    the header line, spelled out below as [printf] receives them, then
    one row per live cache, cleans up and returns [EXIT_SUCCESS]; with
    no live cache that is the summary and the header alone.  A failed
    fetch, a failed sort and a failed summary each end the process with
    [EXIT_FAILURE] after that single fetch. *)
Theorem one_shot_is_exactly_one_cycle (opts : list getopt) :
  Run_once (start opts) = true -> exited (start opts) = false ->
  (forall ins s,
     main opts ins = Some s ->
     count is_fetch (trace s) <= 1 /\ interactive_pc (at_pc s) = false) /\
  (forall r0 a0 nr a r st,
     0 <= r0 -> 0 <= nr -> 0 <= r ->
     exists s,
       main opts (once_inputs r0 a0 nr a r st
                  ++ repeat In_tau (S (S (Z.to_nat nr)))) = Some s /\
       at_pc s = Exited EXIT_SUCCESS /\
       trace s = [ Ev_slabinfo_new; Ev_chains_alloc CHAINS_ALLOC MAX_ITEMS;
                   Ev_chains_fill CHAINS_ALLOC;
                   Ev_chains_sort nr (Sort_item (start opts));
                   Ev_slabs_getchain ]
                 ++ [ Ev_print Stdout " %-35s: %d / %d (%.1f%%)\n"
                       [ Arg_str "Active / Total Objects (% used)";
                         Arg_int (stat_AOBJS st); Arg_int (stat_OBJS st);
                         Arg_double (percent (stat_AOBJS st) (stat_OBJS st)) ];
                     Ev_print Stdout " %-35s: %d / %d (%.1f%%)\n"
                       [ Arg_str "Active / Total Slabs (% used)";
                         Arg_int (stat_ASLABS st); Arg_int (stat_SLABS st);
                         Arg_double (percent (stat_ASLABS st) (stat_SLABS st)) ];
                     Ev_print Stdout " %-35s: %d / %d (%.1f%%)\n"
                       [ Arg_str "Active / Total Caches (% used)";
                         Arg_int (stat_ACACHES st); Arg_int (stat_CACHES st);
                         Arg_double (percent (stat_ACACHES st) (stat_CACHES st)) ];
                     Ev_print Stdout " %-35s: %.2fK / %.2fK (%.1f%%)\n"
                       [ Arg_str "Active / Total Size (% used)";
                         Arg_double (kib (stat_ACTIVE st));
                         Arg_double (kib (stat_TOTAL st));
                         Arg_double (percent (stat_ACTIVE st) (stat_TOTAL st)) ];
                     Ev_print Stdout " %-35s: %.2fK / %.2fK / %.2fK\n\n"
                       [ Arg_str "Minimum / Average / Maximum Object";
                         Arg_double (kib (stat_MIN st));
                         Arg_double (kib (stat_AVG st));
                         Arg_double (kib (stat_MAX st)) ] ]
                 ++ [ Ev_print Stdout "%-78s\n"
                        [ Arg_str "  OBJS ACTIVE  USE OBJ SIZE  SLABS OBJ/SLAB CACHE SIZE NAME" ] ]
                 ++ rows_from a 0 (Z.to_nat nr) ++ [Ev_slabinfo_unref]) /\
  (forall r0 a0 a r st,
     0 <= r0 -> 0 <= r ->
     exists s,
       main opts (once_inputs r0 a0 0 a r st ++ [In_tau; In_tau]) = Some s /\
       at_pc s = Exited EXIT_SUCCESS /\
       trace s = [ Ev_slabinfo_new; Ev_chains_alloc CHAINS_ALLOC MAX_ITEMS;
                   Ev_chains_fill CHAINS_ALLOC;
                   Ev_chains_sort 0 (Sort_item (start opts));
                   Ev_slabs_getchain ]
                 ++ [ Ev_print Stdout " %-35s: %d / %d (%.1f%%)\n"
                       [ Arg_str "Active / Total Objects (% used)";
                         Arg_int (stat_AOBJS st); Arg_int (stat_OBJS st);
                         Arg_double (percent (stat_AOBJS st) (stat_OBJS st)) ];
                     Ev_print Stdout " %-35s: %d / %d (%.1f%%)\n"
                       [ Arg_str "Active / Total Slabs (% used)";
                         Arg_int (stat_ASLABS st); Arg_int (stat_SLABS st);
                         Arg_double (percent (stat_ASLABS st) (stat_SLABS st)) ];
                     Ev_print Stdout " %-35s: %d / %d (%.1f%%)\n"
                       [ Arg_str "Active / Total Caches (% used)";
                         Arg_int (stat_ACACHES st); Arg_int (stat_CACHES st);
                         Arg_double (percent (stat_ACACHES st) (stat_CACHES st)) ];
                     Ev_print Stdout " %-35s: %.2fK / %.2fK (%.1f%%)\n"
                       [ Arg_str "Active / Total Size (% used)";
                         Arg_double (kib (stat_ACTIVE st));
                         Arg_double (kib (stat_TOTAL st));
                         Arg_double (percent (stat_ACTIVE st) (stat_TOTAL st)) ];
                     Ev_print Stdout " %-35s: %.2fK / %.2fK / %.2fK\n\n"
                       [ Arg_str "Minimum / Average / Maximum Object";
                         Arg_double (kib (stat_MIN st));
                         Arg_double (kib (stat_AVG st));
                         Arg_double (kib (stat_MAX st)) ] ]
                 ++ [ Ev_print Stdout "%-78s\n"
                        [ Arg_str "  OBJS ACTIVE  USE OBJ SIZE  SLABS OBJ/SLAB CACHE SIZE NAME" ] ]
                 ++ [Ev_slabinfo_unref] /\
       count is_details (trace s) = 0 /\ count is_fetch (trace s) = 1) /\
  (forall r0 a0 nr,
     0 <= r0 -> nr < 0 ->
     exists s,
       main opts [ In_slabinfo_new r0; In_chains_alloc (Some a0);
                   In_chains_fill nr; In_tau ] = Some s /\
       at_pc s = Exited EXIT_FAILURE /\ count is_fetch (trace s) = 1) /\
  (forall r0 a0 nr,
     0 <= r0 -> 0 <= nr ->
     exists s,
       main opts [ In_slabinfo_new r0; In_chains_alloc (Some a0);
                   In_chains_fill nr; In_chains_sort None; In_tau ] = Some s /\
       at_pc s = Exited EXIT_FAILURE /\ count is_fetch (trace s) = 1) /\
  (forall r0 a0 nr a r st,
     0 <= r0 -> 0 <= nr -> r < 0 ->
     exists s,
       main opts (once_inputs r0 a0 nr a r st) = Some s /\
       at_pc s = Exited EXIT_FAILURE /\ count is_fetch (trace s) = 1).
Proof.
  intros Ho He.
  split; [|split; [|split; [|split; [|split]]]].
  - now apply once_fetches_once.
  - intros r0 a0 nr a r st Hr0 Hnr Hr.
    exact (once_good_run opts Ho He r0 a0 nr a r st Hr0 Hnr Hr).
  - intros r0 a0 a r st Hr0 Hr.
    destruct (once_good_run opts Ho He r0 a0 0 a r st Hr0 (Z.le_refl 0) Hr)
      as (s & Hs & Hpc & Htr).
    exists s. split; [exact Hs|]. split; [exact Hpc|].
    split; [exact Htr|].
    rewrite Htr. split; count_events; reflexivity.
  - now apply once_fetch_fails.
  - now apply once_sort_fails.
  - now apply once_summary_fails.
Qed.

Lemma one_shot_is_exactly_one_cycle_witness :
  exists s,
    main [Opt_o] sample_once_empty = Some s /\
    at_pc s = Exited EXIT_SUCCESS /\
    trace s = [ Ev_slabinfo_new; Ev_chains_alloc CHAINS_ALLOC MAX_ITEMS;
                Ev_chains_fill CHAINS_ALLOC;
                Ev_chains_sort 0 (Sort_item (start [Opt_o]));
                Ev_slabs_getchain ]
              ++ summary_lines true sample_stats
              ++ [headings_line true; Ev_slabinfo_unref] /\
    count is_details (trace s) = 0 /\ count is_fetch (trace s) = 1.
Proof.
  assert (Ho : Run_once (start [Opt_o]) = true) by reflexivity.
  assert (He : exited (start [Opt_o]) = false) by reflexivity.
  destruct (one_shot_is_exactly_one_cycle [Opt_o] Ho He)
    as (_ & _ & Hempty & _).
  apply (Hempty 0 [] [] 0 sample_stats); lia.
Defined.

(** ** Fatal paths and the terminal *)

(** The two [break]s of the loop body reach the cleanup, which in
    interactive mode restores the terminal and closes curses. *)
Lemma break_restores_terminal (s : state) (msg : string) :
  Run_once s = false ->
  exists s',
    step (fail_and_break msg s) In_tau = Some s' /\
    at_pc s' = Exited EXIT_FAILURE /\
    trace s' = trace s ++ [Ev_xwarn msg]
               ++ (if is_tty s then [Ev_tcsetattr] else [])
               ++ [Ev_endwin; Ev_slabinfo_unref].
Proof.
  intros Ho. eexists. split; [apply step_cleanup; reflexivity|].
  unfold cleanup, fail_and_break. cbn. rewrite Ho. cbn.
  split; [reflexivity|]. destruct (is_tty s); cbn; now rewrite <- !app_assoc.
Qed.

(** A failed summary in interactive mode leaves through [xerrx]: the
    process is gone after the message, nothing is put on the trace after
    it. *)
Lemma summary_failure_exits_at_once (s : state) (r : Z) (st : slabs_stats) :
  at_pc s = At_render -> Run_once s = false -> r < 0 ->
  exists s',
    step s (In_slabs_getchain r st) = Some s' /\
    at_pc s' = Exited EXIT_FAILURE /\
    count is_restore (trace s') = count is_restore (trace s).
Proof.
  intros Hpc Ho Hr. apply Z.ltb_lt in Hr.
  unfold step. rewrite Hpc. unfold render_top, print_summary, exit_with, exited.
  rewrite Ho. cbn. rewrite Hr. cbn.
  destruct (negb (old_rows s =? Rows (geom s))); cbn;
    (eexists; split; [reflexivity|]; split; [reflexivity|]);
    cbn; count_events; lia.
Qed.

(** C2, at the failing input. An interactive run on a terminal whose
    first summary chain cannot be obtained ends with status
    [EXIT_FAILURE] right after the message: the terminal attributes were
    saved and curses was started, yet neither [tcsetattr] nor [endwin]
    is ever called.  The run whose first fetch fails does call both
    before it returns. *)
Theorem summary_failure_skips_terminal_restore :
  (exists s,
     main [] sample_summary_failure = Some s /\
     at_pc s = Exited EXIT_FAILURE /\
     In Ev_tcgetattr (trace s) /\ In Ev_initscr (trace s) /\
     count is_restore (trace s) = 0 /\
     exists t, trace s
               = t ++ [Ev_xerrx EXIT_FAILURE "Error getting slab summary results"]) /\
  (exists s,
     main [] sample_fetch_failure = Some s /\
     at_pc s = Exited EXIT_FAILURE /\
     exists t, trace s = t ++ [Ev_tcsetattr; Ev_endwin; Ev_slabinfo_unref]).
Proof.
  split.
  - eexists. split; [vm_compute; reflexivity|].
    split; [reflexivity|].
    split; [cbn; tauto|]. split; [cbn; tauto|]. split; [reflexivity|].
    match goal with
    | |- exists t, ?l = t ++ _ => exists (removelast l)
    end. reflexivity.
  - eexists. split; [vm_compute; reflexivity|].
    split; [reflexivity|].
    match goal with
    | |- exists t, ?l = t ++ _ => exists (firstn (List.length l - 3) l)
    end. reflexivity.
Qed.

(** ** Percentages *)

(** *** Binary64 arithmetic: what a shift and a rounding keep *)

Lemma shr_1_m (r : shr_record) :
  0 <= shr_m r -> shr_m (shr_1 r) = shr_m r / 2.
Proof.
  destruct r as [m r s]. cbn [shr_m]. intros H. rewrite <- Z.div2_div.
  destruct m as [|[p|p|]|p]; try reflexivity; lia.
Qed.

Lemma iter_shr_1_m (p : positive) : forall r,
  0 <= shr_m r -> shr_m (iter_pos shr_1 p r) = shr_m r / 2 ^ Zpos p.
Proof.
  induction p as [p IH|p IH|]; intros r H; cbn [iter_pos].
  - assert (H1 : 0 <= shr_m (shr_1 r)) by (rewrite shr_1_m by lia; apply Z.div_pos; lia).
    assert (H2 : 0 <= shr_m (iter_pos shr_1 p (shr_1 r))).
    { rewrite IH by lia. apply Z.div_pos; lia. }
    rewrite IH, IH, shr_1_m by lia.
    rewrite !Z.div_div by lia.
    replace (Z.pos p~1) with (1 + Z.pos p + Z.pos p) by lia.
    rewrite !Z.pow_add_r by lia. f_equal. lia.
  - assert (H2 : 0 <= shr_m (iter_pos shr_1 p r)).
    { rewrite IH by lia. apply Z.div_pos; lia. }
    rewrite IH, IH by lia. rewrite !Z.div_div by lia.
    replace (Z.pos p~0) with (Z.pos p + Z.pos p) by lia.
    rewrite !Z.pow_add_r by lia. f_equal.
  - rewrite shr_1_m by lia. reflexivity.
Qed.

Lemma digits2_pos_bounds (m : positive) :
  2 ^ (Zpos (digits2_pos m) - 1) <= Zpos m < 2 ^ Zpos (digits2_pos m).
Proof.
  induction m as [m IH|m IH|]; cbn [digits2_pos].
  - rewrite Pos2Z.inj_succ, Z.pow_succ_r by lia.
    change (Z.pos m~1) with (2 * Z.pos m + 1).
    replace (Z.succ (Z.pos (digits2_pos m)) - 1)
      with (Z.succ (Z.pos (digits2_pos m) - 1)) by lia.
    rewrite Z.pow_succ_r by lia.
    set (A := 2 ^ (Z.pos (digits2_pos m) - 1)) in *.
    set (B := 2 ^ Z.pos (digits2_pos m)) in *. clearbody A B. lia.
  - rewrite Pos2Z.inj_succ, Z.pow_succ_r by lia.
    change (Z.pos m~0) with (2 * Z.pos m).
    replace (Z.succ (Z.pos (digits2_pos m)) - 1)
      with (Z.succ (Z.pos (digits2_pos m) - 1)) by lia.
    rewrite Z.pow_succ_r by lia.
    set (A := 2 ^ (Z.pos (digits2_pos m) - 1)) in *.
    set (B := 2 ^ Z.pos (digits2_pos m)) in *. clearbody A B. lia.
  - cbn. lia.
Qed.

Lemma digits2_pos_lower (m : positive) (k : Z) :
  2 ^ k <= Zpos m -> k < Zpos (digits2_pos m).
Proof.
  intros H. destruct (digits2_pos_bounds m) as [_ Hu].
  destruct (Z.lt_ge_cases k (Zpos (digits2_pos m))) as [Hlt|Hge]; [exact Hlt|].
  exfalso. assert (2 ^ Zpos (digits2_pos m) <= 2 ^ k) by (apply Z.pow_le_mono_r; lia). lia.
Qed.


Lemma digits2_pos_mono (m m' : positive) :
  Zpos m <= Zpos m' -> Zpos (digits2_pos m) <= Zpos (digits2_pos m').
Proof.
  intros H. destruct (digits2_pos_bounds m) as [Hl _].
  assert (Zpos (digits2_pos m) - 1 < Zpos (digits2_pos m'))
    by (apply digits2_pos_lower; lia).
  lia.
Qed.

(** A right shift by fewer places than the mantissa has digits leaves a
    positive mantissa, and the digits it removes are added to the
    exponent. *)
Lemma shr_keeps_positive (m : positive) (e n : Z) (l : location) :
  n < Zpos (digits2_pos m) ->
  exists m' e',
    shr_m (fst (shr (shr_record_of_loc (Zpos m) l) e n)) = Zpos m' /\
    snd (shr (shr_record_of_loc (Zpos m) l) e n) = e' /\
    Zpos (digits2_pos m) + e <= Zpos (digits2_pos m') + e'.
Proof.
  intros Hn.
  assert (Hm : shr_m (shr_record_of_loc (Zpos m) l) = Zpos m)
    by (destruct l as [|[| |]]; reflexivity).
  destruct n as [|p|p]; cbn [shr fst snd].
  - exists m, e. rewrite Hm. repeat split; lia.
  - destruct (digits2_pos_bounds m) as [Hl Hu].
    assert (Hp : 2 ^ Zpos p <= 2 ^ (Zpos (digits2_pos m) - 1))
      by (apply Z.pow_le_mono_r; lia).
    assert (Hq : 2 ^ (Zpos (digits2_pos m) - 1 - Zpos p)
                 <= Zpos m / 2 ^ Zpos p).
    { apply Z.div_le_lower_bound; [lia|].
      rewrite <- Z.pow_add_r by lia.
      replace (Zpos p + (Zpos (digits2_pos m) - 1 - Zpos p))
        with (Zpos (digits2_pos m) - 1) by lia.
      exact Hl. }
    assert (Hpos : 0 < Zpos m / 2 ^ Zpos p).
    { assert (0 < 2 ^ (Zpos (digits2_pos m) - 1 - Zpos p))
        by (apply Z.pow_pos_nonneg; lia).
      lia. }
    rewrite iter_shr_1_m by (rewrite Hm; lia). rewrite Hm.
    destruct (Zpos m / 2 ^ Zpos p) as [|m'|m'] eqn:E; try lia.
    exists m', (e + Zpos p). repeat split.
    apply digits2_pos_lower in Hq. lia.
  - exists m, e. rewrite Hm. repeat split; lia.
Qed.

Lemma shr_fexp_keeps_positive (m : positive) (e : Z) (l : location) :
  emin 53 1024 < Zpos (digits2_pos m) + e ->
  exists r m' e',
    shr_fexp 53 1024 (Zpos m) e l = (r, e') /\
    shr_m r = Zpos m' /\
    emin 53 1024 < Zpos (digits2_pos m') + e'.
Proof.
  intros H. unfold shr_fexp. cbn [Zdigits2].
  destruct (shr_keeps_positive m e
              (fexp 53 1024 (Zpos (digits2_pos m) + e) - e) l)
    as (m' & e' & Hm & He & Hd).
  { unfold fexp. lia. }
  destruct (shr (shr_record_of_loc (Zpos m) l) e
              (fexp 53 1024 (Zpos (digits2_pos m) + e) - e)) as [r e''].
  cbn [fst snd] in Hm, He. subst e''.
  exists r, m', e'. repeat split; [exact Hm | lia].
Qed.

Lemma round_nearest_even_positive (m : positive) (l : location) :
  exists m', round_nearest_even (Zpos m) l = Zpos m' /\ Zpos m <= Zpos m'.
Proof.
  destruct l as [|[| |]]; cbn [round_nearest_even];
    try (exists m; split; [reflexivity | lia]).
  - destruct (Z.even (Zpos m)).
    + exists m. split; [reflexivity | lia].
    + exists (m + 1)%positive. split; [reflexivity | lia].
  - exists (m + 1)%positive. split; [reflexivity | lia].
Qed.

(** Rounding a positive mantissa above the underflow threshold gives a
    finite number or an infinity of the requested sign: never a zero,
    never a NaN. *)
Lemma binary_round_aux_sign (sx : bool) (m : positive) (e : Z) (l : location) :
  emin 53 1024 < Zpos (digits2_pos m) + e ->
  binary_round_aux 53 1024 sx (Zpos m) e l = S754_infinity sx \/
  exists m' e', binary_round_aux 53 1024 sx (Zpos m) e l = S754_finite sx m' e'.
Proof.
  intros H. unfold binary_round_aux.
  destruct (shr_fexp_keeps_positive m e l H) as (r1 & m1 & e1 & -> & Hm1 & Hd1).
  rewrite Hm1.
  destruct (round_nearest_even_positive m1 (loc_of_shr_record r1))
    as (m2 & -> & Hle).
  assert (Hd2 : emin 53 1024 < Zpos (digits2_pos m2) + e1).
  { pose proof (digits2_pos_mono m1 m2 Hle). lia. }
  destruct (shr_fexp_keeps_positive m2 e1 loc_Exact Hd2)
    as (r3 & m3 & e3 & -> & Hm3 & _).
  rewrite Hm3.
  destruct (e3 <=? 1024 - 53); [right; now eexists _, _ | now left].
Qed.


Lemma iter_xO_pow (p d : positive) :
  Zpos (Pos.iter xO p d) = Zpos p * 2 ^ Zpos d.
Proof.
  induction d as [|d IH] using Pos.peano_ind.
  - cbn. lia.
  - rewrite Pos.iter_succ, Pos2Z.inj_succ, Z.pow_succ_r by lia.
    change (Zpos (Pos.iter xO p d)~0) with (2 * Zpos (Pos.iter xO p d)).
    rewrite IH. lia.
Qed.

Lemma binary_normalize_positive (p : positive) :
  signed_nonzero false (binary_normalize 53 1024 (Zpos p) 0 false).
Proof.
  cbn [binary_normalize]. unfold binary_round, shl_align.
  destruct (fexp 53 1024 (Zpos (digits2_pos p) + 0) - 0) as [|d|d] eqn:E;
    try (apply binary_round_aux_sign; unfold emin; lia).
  apply binary_round_aux_sign.
  assert (Hd : Zpos d < Zpos (digits2_pos (Pos.iter xO p d))).
  { apply digits2_pos_lower. rewrite iter_xO_pow.
    assert (0 < 2 ^ Zpos d) by (apply Z.pow_pos_nonneg; lia). nia. }
  unfold fexp, emin in *. lia.
Qed.

Lemma of_uint63_positive (n : int) :
  0 < Uint63.to_Z n -> signed_nonzero false (Prim2SF (PrimFloat.of_uint63 n)).
Proof.
  intros H. rewrite FloatAxioms.of_uint63_spec.
  destruct (Uint63.to_Z n) as [|p|p]; try lia.
  apply binary_normalize_positive.
Qed.

Lemma SFopp_signed (s : bool) (x : spec_float) :
  signed_nonzero s x -> signed_nonzero (negb s) (SFopp x).
Proof.
  intros [-> | (m & e & ->)]; [left | right; eexists _, _]; reflexivity.
Qed.

Lemma mul_100_signed (s : bool) (y : spec_float) :
  valid_binary 53 1024 y = true -> signed_nonzero s y ->
  signed_nonzero s (SFmul 53 1024 SF_100 y).
Proof.
  intros Hv [-> | (m & e & ->)].
  - left. reflexivity.
  - unfold SF_100. cbn [SFmul xorb].
    apply binary_round_aux_sign.
    cbn [valid_binary] in Hv. unfold bounded, canonical_mantissa in Hv.
    apply andb_true_iff in Hv. destruct Hv as [Hc _]. apply Z.eqb_eq in Hc.
    assert (He : emin 53 1024 <= e) by (unfold fexp in Hc; lia).
    assert (Hd : 52 < Zpos (digits2_pos (7036874417766400 * m))).
    { apply digits2_pos_lower. change (2 ^ 52) with 4503599627370496.
      rewrite Pos2Z.inj_mul. nia. }
    lia.
Qed.

Lemma div_zero_signed (s : bool) (x : spec_float) :
  signed_nonzero s x -> SFdiv 53 1024 x (S754_zero false) = S754_infinity s.
Proof.
  intros [-> | (m & e & ->)]; cbn; now destruct s.
Qed.

Lemma of_int_signed (a : Z) :
  is_int a -> a <> 0 -> signed_nonzero (a <? 0) (Prim2SF (of_int a)).
Proof.
  unfold is_int, of_int. intros Ha Hz.
  assert (H31 : 2 ^ 31 < wB) by (vm_compute; reflexivity).
  destruct (Z.ltb_spec a 0) as [Hneg | Hpos].
  - rewrite FloatAxioms.opp_spec. change true with (negb false).
    apply SFopp_signed, of_uint63_positive.
    rewrite Uint63.of_Z_spec, Z.mod_small; lia.
  - apply of_uint63_positive.
    rewrite Uint63.of_Z_spec, Z.mod_small; lia.
Qed.

(** The percentage for a total of 0: a NaN for no active object, else
    the infinity of the sign of [a]. *)
Lemma percent_zero_total (a : Z) :
  is_int a ->
  convert_f (percent a 0) = if a =? 0 then F_nan else F_inf (a <? 0).
Proof.
  intros Ha. destruct (Z.eqb_spec a 0) as [-> | Hz]; [reflexivity|].
  unfold percent. change (of_int 0) with 0%float.
  rewrite <- (SF2Prim_Prim2SF (PrimFloat.div _ _)).
  rewrite FloatAxioms.div_spec, FloatAxioms.mul_spec.
  change (Prim2SF 100%float) with SF_100.
  change (Prim2SF 0%float) with (S754_zero false).
  rewrite (div_zero_signed (a <? 0)).
  - now destruct (a <? 0).
  - apply mul_100_signed; [apply Prim2SF_valid | now apply of_int_signed].
Qed.

Lemma print_summary_succeeds (r : Z) (st : slabs_stats) (s : state) :
  0 <= r ->
  exited (print_summary r st s) = exited s /\
  trace (print_summary r st s)
  = trace s ++ [Ev_slabs_getchain] ++ summary_lines (Run_once s) st.
Proof.
  intros Hr. apply Z.ltb_ge in Hr. unfold print_summary. rewrite Hr.
  split; [reflexivity|]. cbn. now rewrite <- app_assoc.
Qed.

(** C8, as the program has it. Each of the four percentage lines hands
    [100.0 * active / total] to [%.1f] (30 for 3 of 10).  With a total
    of 0 the summary is printed all the same, no fatal error is raised,
    and what [printf] receives is never a finite number: it is a NaN
    when there is no active object either, and otherwise the infinity
    of the sign of the active count, printed in the [nan] or [inf]
    style. *)
Theorem zero_total_percentage_is_not_finite
  (st : slabs_stats) (a r : Z) (s : state) :
  0 <= r -> exited s = false -> is_int a ->
  map percent_arg (firstn 4 (summary_lines (Run_once s) st))
  = [ Some (percent (stat_AOBJS st) (stat_OBJS st));
      Some (percent (stat_ASLABS st) (stat_SLABS st));
      Some (percent (stat_ACACHES st) (stat_CACHES st));
      Some (percent (stat_ACTIVE st) (stat_TOTAL st)) ] /\
  convert_f (percent 3 10) = F_digits 30%float /\
  convert_f (percent a 0) = (if a =? 0 then F_nan else F_inf (a <? 0)) /\
  exited (print_summary r st s) = false /\
  trace (print_summary r st s)
  = trace s ++ [Ev_slabs_getchain] ++ summary_lines (Run_once s) st.
Proof.
  intros Hr He Ha.
  split; [reflexivity|]. split; [reflexivity|].
  split; [now apply percent_zero_total|].
  destruct (print_summary_succeeds r st s Hr) as [H1 H2].
  rewrite H1. now split.
Qed.

Lemma zero_total_percentage_is_not_finite_witness :
  map percent_arg (firstn 4 (summary_lines (Run_once initial) sample_stats))
  = [ Some (percent 3 10); Some (percent 0 0);
      Some (percent 1 1); Some (percent 2048 4096) ] /\
  convert_f (percent 3 10) = F_digits 30%float /\
  convert_f (percent 3 0) = (if 3 =? 0 then F_nan else F_inf (3 <? 0)) /\
  exited (print_summary 0 sample_stats initial) = false /\
  trace (print_summary 0 sample_stats initial)
  = trace initial ++ [Ev_slabs_getchain]
    ++ summary_lines (Run_once initial) sample_stats.
Proof.
  apply (zero_total_percentage_is_not_finite sample_stats 3 0 initial).
  - lia.
  - reflexivity.
  - unfold is_int. lia.
Defined.

(** C8, as stated, fails: with a total of 0 the text is not one fixed
    placeholder.  No active object gives a NaN, three give an infinity,
    a negative count the negative infinity, and [printf] writes each
    differently. *)
Lemma zero_total_placeholder_varies :
  convert_f (percent 0 0) = F_nan /\
  convert_f (percent 3 0) = F_inf false /\
  convert_f (percent (-3) 0) = F_inf true /\
  ~ (exists p, forall a, convert_f (percent a 0) = p).
Proof.
  assert (H0 : convert_f (percent 0 0) = F_nan) by (vm_compute; reflexivity).
  assert (H3 : convert_f (percent 3 0) = F_inf false)
    by (vm_compute; reflexivity).
  repeat (split; [assumption || (vm_compute; reflexivity)|]).
  intros [p Hp]. rewrite Hp in H0, H3. congruence.
Qed.

(** * Further properties of the program *)

(** ** What [parse_opts] leaves behind *)

Lemma parse_opts_app (pre post : list getopt) : forall s,
  exited (parse_opts pre s) = false ->
  parse_opts (pre ++ post) s = parse_opts post (parse_opts pre s).
Proof.
  induction pre as [|o pre IH]; intros s H; cbn [app parse_opts] in *.
  - reflexivity.
  - destruct (exited (parse_opt o s)) eqn:E; [congruence|]. now apply IH.
Qed.

Lemma harmless_not_exited (o : getopt) (s : state) :
  harmless o = true -> exited s = false -> exited (parse_opt o s) = false.
Proof.
  unfold harmless, opt_exit_status, exited.
  destruct o as [[d|] | optarg | | | | ]; cbn; try discriminate; auto.
  destruct (d <? 1); now cbn.
Qed.

Lemma harmless_prefix (pre : list getopt) : forall s,
  forallb harmless pre = true -> exited s = false ->
  exited (parse_opts pre s) = false.
Proof.
  induction pre as [|o pre IH]; intros s H He; cbn in *; [exact He|].
  apply andb_true_iff in H. destruct H as [Ho Hpre].
  rewrite (harmless_not_exited o s Ho He).
  apply IH; [exact Hpre | now apply harmless_not_exited].
Qed.

Lemma fatal_opt_exits (o : getopt) (st : Z) (s : state) :
  opt_exit_status o = Some st ->
  at_pc (parse_opt o s) = Exited st /\
  exists e, trace (parse_opt o s) = trace s ++ [e] /\ parse_event e = true /\
            is_failure e = negb (st =? EXIT_SUCCESS).
Proof.
  unfold opt_exit_status.
  destruct o as [[d|] | optarg | | | | ]; cbn; try discriminate.
  - destruct (d <? 1); [|discriminate]. intros H. inversion H; subst. cbn.
    split; [reflexivity|]. eexists. repeat split.
  - intros H. inversion H; subst. split; [reflexivity|]. eexists. repeat split.
  - intros H. inversion H; subst. split; [reflexivity|]. eexists. repeat split.
  - intros H. inversion H; subst. split; [reflexivity|]. eexists. repeat split.
  - intros H. inversion H; subst. split; [reflexivity|]. eexists. repeat split.
Qed.

(** The first option that asks for an exit (a delay that is not a
    positive integer, [-V], [-h], an unknown option) ends the process
    with its status, 0 for version and help and 1 otherwise; the options
    after it are never looked at, the collector is never opened and
    [main] takes no further step. *)
Theorem first_fatal_option_decides
  (pre rest : list getopt) (o : getopt) (st : Z) :
  forallb harmless pre = true -> opt_exit_status o = Some st ->
  start (pre ++ o :: rest) = start (pre ++ [o]) /\
  at_pc (start (pre ++ o :: rest)) = Exited st /\
  (st = EXIT_SUCCESS \/ st = EXIT_FAILURE) /\
  (st = EXIT_SUCCESS <-> o = Opt_V \/ o = Opt_h) /\
  count is_slabinfo_new (trace (start (pre ++ o :: rest))) = 0 /\
  (forall i ins, main (pre ++ o :: rest) (i :: ins) = None).
Proof.
  intros Hpre Ho.
  assert (Hne : exited (parse_opts pre initial) = false)
    by (now apply harmless_prefix).
  destruct (fatal_opt_exits o st (parse_opts pre initial) Ho)
    as (Hpc & e & Htr & Hpe & _).
  assert (Hst : forall post,
             start (pre ++ o :: post) = parse_opt o (parse_opts pre initial)).
  { intros post. unfold start. rewrite parse_opts_app by exact Hne.
    cbn [parse_opts]. unfold exited. now rewrite Hpc. }
  rewrite !Hst. split; [reflexivity|]. split; [exact Hpc|].
  split; [|split; [|split]].
  - unfold opt_exit_status in Ho.
    destruct o as [[d|] | | | | | ]; try destruct (d <? 1);
      inversion Ho; auto.
  - unfold opt_exit_status in Ho.
    destruct o as [[d|] | | | | | ]; try destruct (d <? 1);
      inversion Ho; subst; split; intros H; auto;
      try discriminate; destruct H; discriminate.
  - rewrite Htr, count_app.
    destruct (parse_opts_trace pre initial) as (es & Hes & Hall).
    rewrite Hes, count_app. cbn [trace initial].
    rewrite (count_none is_slabinfo_new es), (count_none is_slabinfo_new [e]).
    + reflexivity.
    + cbn. destruct e; try discriminate; reflexivity.
    + clear - Hall. induction es as [|x es IH]; cbn in *; [reflexivity|].
      apply andb_true_iff in Hall. destruct Hall as [Hx Hall].
      rewrite (IH Hall), andb_true_r. destruct x; try discriminate; reflexivity.
  - intros i ins. unfold main. rewrite Hst. cbn [run]. unfold step.
    now rewrite Hpc.
Qed.

Lemma first_fatal_option_decides_witness :
  start ([Opt_s "n"; Opt_d (Some 5)] ++ Opt_d (Some 0) :: [Opt_o; Opt_h])
  = start ([Opt_s "n"; Opt_d (Some 5)] ++ [Opt_d (Some 0)]) /\
  at_pc (start ([Opt_s "n"; Opt_d (Some 5)] ++ Opt_d (Some 0) :: [Opt_o; Opt_h]))
  = Exited EXIT_FAILURE /\
  (EXIT_FAILURE = EXIT_SUCCESS \/ EXIT_FAILURE = EXIT_FAILURE) /\
  (EXIT_FAILURE = EXIT_SUCCESS <-> Opt_d (Some 0) = Opt_V \/ Opt_d (Some 0) = Opt_h) /\
  count is_slabinfo_new
    (trace (start ([Opt_s "n"; Opt_d (Some 5)] ++ Opt_d (Some 0) :: [Opt_o; Opt_h])))
  = 0 /\
  (forall i ins,
     main ([Opt_s "n"; Opt_d (Some 5)] ++ Opt_d (Some 0) :: [Opt_o; Opt_h])
       (i :: ins) = None).
Proof.
  apply (first_fatal_option_decides
           [Opt_s "n"; Opt_d (Some 5)] [Opt_o; Opt_h] (Opt_d (Some 0))
           EXIT_FAILURE); reflexivity.
Defined.

(** Options are looked at only while the process is still running. *)
Lemma parse_opts_prefix_running (pre post : list getopt) : forall s,
  exited s = false ->
  exited (parse_opts (pre ++ post) s) = false ->
  exited (parse_opts pre s) = false.
Proof.
  induction pre as [|o pre IH]; intros s Hs H; cbn [app parse_opts] in *.
  - exact Hs.
  - destruct (exited (parse_opt o s)) eqn:E; [congruence|]. now apply IH.
Qed.

Lemma parse_opts_keeps_sort (opts : list getopt) : forall s,
  forallb (fun o => negb (is_Opt_s o)) opts = true ->
  Sort_item (parse_opts opts s) = Sort_item s.
Proof.
  induction opts as [|o rest IH]; intros s H; cbn in *; [reflexivity|].
  apply andb_true_iff in H. destruct H as [Ho Hrest].
  assert (Hs : Sort_item (parse_opt o s) = Sort_item s).
  { destruct o as [[d|] | optarg | | | | ]; cbn in *; try discriminate;
      try reflexivity. now destruct (d <? 1). }
  destruct (exited (parse_opt o s)); [exact Hs|].
  now rewrite IH.
Qed.

(** Of several [-s] options the last one decides, by the first character
    of its argument alone; an empty argument selects the default, and so
    does a command line without [-s]. *)
Theorem last_sort_option_wins
  (pre post : list getopt) (optarg : string) :
  forallb (fun o => negb (is_Opt_s o)) post = true ->
  exited (start (pre ++ Opt_s optarg :: post)) = false ->
  Sort_item (start (pre ++ Opt_s optarg :: post))
  = set_sort_item (first_char optarg) /\
  (optarg = EmptyString ->
   Sort_item (start (pre ++ Opt_s optarg :: post)) = DEFAULT_SORT) /\
  (forall a rest, optarg = String a rest ->
   Sort_item (start (pre ++ Opt_s optarg :: post)) = set_sort_item (chr a)) /\
  Sort_item (start post) = DEFAULT_SORT.
Proof.
  intros Hpost He.
  assert (Hpre : exited (parse_opts pre initial) = false)
    by (eapply parse_opts_prefix_running; [reflexivity | exact He]).
  assert (Hs : Sort_item (start (pre ++ Opt_s optarg :: post))
               = set_sort_item (first_char optarg)).
  { unfold start. rewrite parse_opts_app by exact Hpre. cbn [parse_opts].
    destruct (exited (parse_opt (Opt_s optarg) (parse_opts pre initial)));
      [reflexivity|].
    now rewrite parse_opts_keeps_sort. }
  rewrite Hs. split; [reflexivity|]. split; [|split].
  - now intros ->.
  - now intros a rest ->.
  - unfold start. now rewrite parse_opts_keeps_sort.
Qed.

Lemma last_sort_option_wins_witness :
  Sort_item (start ([Opt_s "u"; Opt_d (Some 2)] ++ Opt_s "name" :: [Opt_o]))
  = set_sort_item (first_char "name") /\
  ("name"%string = EmptyString ->
   Sort_item (start ([Opt_s "u"; Opt_d (Some 2)] ++ Opt_s "name" :: [Opt_o]))
   = DEFAULT_SORT) /\
  (forall a rest, "name"%string = String a rest ->
   Sort_item (start ([Opt_s "u"; Opt_d (Some 2)] ++ Opt_s "name" :: [Opt_o]))
   = set_sort_item (chr a)) /\
  Sort_item (start [Opt_o]) = DEFAULT_SORT.
Proof.
  apply (last_sort_option_wins [Opt_s "u"; Opt_d (Some 2)] [Opt_o] "name");
    reflexivity.
Defined.

Lemma parse_opts_once (opts : list getopt) : forall s,
  exited (parse_opts opts s) = false ->
  Run_once (parse_opts opts s) = Run_once s || existsb is_Opt_o opts.
Proof.
  induction opts as [|o rest IH]; intros s H; cbn [parse_opts existsb] in *.
  - now rewrite orb_false_r.
  - destruct (exited (parse_opt o s)) eqn:E; [congruence|].
    rewrite (IH _ H).
    destruct o as [[d|] | optarg | | | | ]; cbn in *; try discriminate;
      try reflexivity.
    + destruct (d <? 1); [discriminate | reflexivity].
    + now rewrite !orb_true_r.
Qed.

Lemma parse_opts_delay_positive (opts : list getopt) : forall s,
  (Run_once s = false -> 1 <= Delay s) ->
  exited (parse_opts opts s) = false ->
  Run_once (parse_opts opts s) = false ->
  1 <= Delay (parse_opts opts s).
Proof.
  induction opts as [|o rest IH]; intros s Hs He Ho; cbn [parse_opts] in *.
  - auto.
  - destruct (exited (parse_opt o s)) eqn:E; [congruence|].
    apply IH; [|exact He | exact Ho].
    destruct o as [[d|] | optarg | | | | ]; cbn in *; try discriminate; auto.
    destruct (Z.ltb_spec d 1); [discriminate|]. cbn. lia.
Qed.

Lemma start_delay_inv (opts : list getopt) :
  delay_inv (Delay (start opts)) (start opts).
Proof.
  split; [reflexivity|]. split.
  - destruct (parse_opts_trace opts initial) as (es & Hes & Hall).
    unfold start at 2. rewrite Hes. cbn. now apply parse_events_no_wait.
  - intros Hpc. destruct (start_pc opts) as [E | [st E]]; congruence.
Qed.

(** The program is in one-shot mode exactly when [-o] was given.  In
    interactive mode the delay is at least one second when the loop
    starts and, as long as no interrupt arrives, it stays what the options
    made it: every wait has that timeout, and a wait that ends without
    input (time-out or interrupted call) is followed by the next
    cycle. *)
Theorem interactive_delay_is_positive
  (opts : list getopt) (ins : list input) (s : state) :
  exited (start opts) = false ->
  forallb not_SIGINT ins = true ->
  main opts ins = Some s ->
  Run_once s = existsb is_Opt_o opts /\
  (existsb is_Opt_o opts = false ->
   1 <= Delay s /\ Delay s = Delay (start opts) /\
   waits_are (Delay (start opts)) (trace s) /\
   (at_pc s = At_while -> step s In_tau = Some (goto At_fill s)) /\
   (at_pc s = At_select -> forall r, r <= 0 ->
      exists s', run s [In_select r; In_tau] = Some s' /\
                 at_pc s' = At_fill /\
                 trace s' = trace s ++ [Ev_select (Delay (start opts))])).
Proof.
  intros He Hins Hmain.
  assert (Hro : Run_once s = Run_once (start opts)).
  { revert Hmain. unfold main. generalize (start opts). clear.
    induction ins as [|i ins IH]; intros s0 H; cbn in H.
    - now inversion H.
    - destruct (step s0 i) as [s1|] eqn:E; [|discriminate].
      rewrite (IH _ H). clear - E. step_cases E; congruence. }
  assert (Ho : Run_once (start opts) = existsb is_Opt_o opts).
  { unfold start in *. now rewrite parse_opts_once. }
  split; [congruence|]. intros Hno.
  assert (Hd : 1 <= Delay (start opts)).
  { unfold start in *. apply parse_opts_delay_positive; try assumption.
    - cbn. lia.
    - congruence. }
  destruct (run_invariant_on not_SIGINT (delay_inv (Delay (start opts)))
              (step_delay_inv (Delay (start opts))) ins (start opts) s Hins
              (start_delay_inv opts) Hmain) as (Hds & Hw & Htv).
  split; [lia|]. split; [exact Hds|]. split; [exact Hw|]. split.
  - intros Hpc. unfold step. rewrite Hpc.
    replace (Delay s =? 0) with false by (symmetry; apply Z.eqb_neq; lia).
    reflexivity.
  - intros Hpc r Hr. eexists. cbn [run]. unfold step at 1. rewrite Hpc.
    replace (0 <? r) with false by (symmetry; apply Z.ltb_ge; lia).
    unfold step. cbn.
    replace (Delay s =? 0) with false by (symmetry; apply Z.eqb_neq; lia).
    cbn. rewrite (Htv Hpc). repeat split.
Qed.

Lemma interactive_delay_is_positive_witness :
  Run_once sample_at_select = existsb is_Opt_o [] /\
  (existsb is_Opt_o [] = false ->
   1 <= Delay sample_at_select /\ Delay sample_at_select = Delay (start []) /\
   waits_are (Delay (start [])) (trace sample_at_select) /\
   (at_pc sample_at_select = At_while ->
    step sample_at_select In_tau = Some (goto At_fill sample_at_select)) /\
   (at_pc sample_at_select = At_select -> forall r, r <= 0 ->
      exists s', run sample_at_select [In_select r; In_tau] = Some s' /\
                 at_pc s' = At_fill /\
                 trace s' = trace sample_at_select
                            ++ [Ev_select (Delay (start []))])).
Proof.
  apply (interactive_delay_is_positive
           [] (sample_interactive ++ repeat In_tau 5));
    vm_compute; reflexivity.
Defined.

(** The last [-d] that is not followed by [-o] sets the delay: in
    interactive mode every wait then has exactly that many seconds as
    its timeout, until an interrupt arrives. *)
Theorem delay_option_sets_every_wait
  (pre post : list getopt) (d : Z) (ins : list input) (s : state) :
  forallb (fun o => negb (sets_delay o)) post = true ->
  exited (start (pre ++ Opt_d (Some d) :: post)) = false ->
  forallb not_SIGINT ins = true ->
  main (pre ++ Opt_d (Some d) :: post) ins = Some s ->
  1 <= d /\ Delay s = d /\ waits_are d (trace s) /\
  (at_pc s = At_select -> tv_sec s = d).
Proof.
  intros Hpost He Hins Hmain.
  assert (Hpre : exited (parse_opts pre initial) = false)
    by (eapply parse_opts_prefix_running; [reflexivity | exact He]).
  assert (Hst : start (pre ++ Opt_d (Some d) :: post)
                = parse_opts (Opt_d (Some d) :: post) (parse_opts pre initial)).
  { unfold start. now rewrite parse_opts_app. }
  assert (Hd : 1 <= d /\ Delay (start (pre ++ Opt_d (Some d) :: post)) = d).
  { rewrite Hst in *. cbn [parse_opts] in *.
    set (s0 := parse_opts pre initial) in *.
    destruct (exited (parse_opt (Opt_d (Some d)) s0)) eqn:E.
    - congruence.
    - destruct (parse_opts_keeps_delay post (parse_opt (Opt_d (Some d)) s0) Hpost)
        as [-> _].
      revert E. cbn. destruct (Z.ltb_spec d 1); cbn; [discriminate|].
      intros _. split; [lia | reflexivity]. }
  destruct Hd as [Hd1 Hd].
  pose proof (run_invariant_on not_SIGINT _ (step_delay_inv _) ins _ s Hins
                (start_delay_inv (pre ++ Opt_d (Some d) :: post)) Hmain) as Hinv.
  rewrite Hd in Hinv. destruct Hinv as (H1 & H2 & H3). auto.
Qed.

Lemma delay_option_sets_every_wait_witness :
  1 <= 7 /\ Delay sample_delayed_wait = 7 /\
  waits_are 7 (trace sample_delayed_wait) /\
  (at_pc sample_delayed_wait = At_select -> tv_sec sample_delayed_wait = 7).
Proof.
  apply (delay_option_sets_every_wait
           [Opt_d (Some 2)] [Opt_s "u"] 7
           (sample_interactive ++ repeat In_tau 5 ++ [In_select 0]));
    vm_compute; reflexivity.
Defined.

(** ** What every run keeps *)

Lemma parse_events_count_zero (p : event -> bool) (es : list event) :
  (forall e, parse_event e = true -> p e = false) ->
  forallb parse_event es = true -> count p es = 0.
Proof.
  intros Hp H. apply count_none.
  induction es as [|e es IH]; cbn in *; [reflexivity|].
  apply andb_true_iff in H. destruct H as [He Hes].
  now rewrite (Hp e He), (IH Hes).
Qed.

Lemma start_trace_count_zero (p : event -> bool) (opts : list getopt) :
  (forall e, parse_event e = true -> p e = false) ->
  count p (trace (start opts)) = 0.
Proof.
  intros Hp. destruct (parse_opts_trace opts initial) as (es & Hes & Hall).
  unfold start. rewrite Hes. cbn [trace initial app].
  now apply parse_events_count_zero.
Qed.

Ltac pc_rewrite Hinv :=
  repeat match goal with
         | E : at_pc ?s = _ |- context [at_pc ?s] => rewrite E
         end;
  try match goal with
      | E : at_pc _ = _ |- _ => rewrite E in Hinv
      end.

Lemma step_lifecycle_inv (s : state) (i : input) (s' : state) :
  lifecycle_inv s -> step s i = Some s' -> lifecycle_inv s'.
Proof.
  unfold lifecycle_inv. intros Hinv H.
  step_cases H; pc_rewrite Hinv; cbn in Hinv;
    repeat match goal with
           | H : _ /\ _ |- _ => destruct H
           end;
    try contradiction; count_events;
    repeat match goal with
           | H : Run_once _ = _ |- _ => rewrite H in *
           | H : is_tty _ = _ |- _ => rewrite H in *
           end;
    cbn in *; repeat split; try lia; try congruence.
Qed.

Lemma main_lifecycle_inv (opts : list getopt) (ins : list input) (s : state) :
  main opts ins = Some s -> lifecycle_inv s.
Proof.
  apply (run_invariant lifecycle_inv step_lifecycle_inv).
  assert (Hz : forall p, (forall e, parse_event e = true -> p e = false) ->
                         count p (trace (start opts)) = 0)
    by (intros p; apply start_trace_count_zero).
  assert (H1 : count is_slabinfo_new (trace (start opts)) = 0)
    by (apply Hz; now destruct e).
  assert (H2 : count is_unref (trace (start opts)) = 0)
    by (apply Hz; now destruct e).
  assert (H3 : count is_initscr (trace (start opts)) = 0)
    by (apply Hz; now destruct e).
  assert (H4 : count is_endwin (trace (start opts)) = 0)
    by (apply Hz; now destruct e).
  assert (H5 : count is_tcgetattr (trace (start opts)) = 0)
    by (apply Hz; now destruct e).
  assert (H6 : count is_tcsetattr (trace (start opts)) = 0)
    by (apply Hz; now destruct e).
  destruct (parse_opts_frame opts initial) as (_ & _ & Hh & Ht & _).
  fold (start opts) in Hh, Ht. cbn in Hh, Ht.
  unfold lifecycle_inv.
  destruct (start_pc opts) as [E | [st E]]; rewrite E; cbn;
    rewrite H1, H2, H3, H4, H5, H6; repeat split; auto; lia.
Qed.

(** Whatever the outside answers: the collector handle is created once
    at most and released once at most, curses is started once at most,
    and inside the loop the signal handlers are installed exactly in
    interactive mode.  When [main] returns through its cleanup
    (the handle was released), [endwin] was called as often as
    [initscr] and [tcsetattr] as often as [tcgetattr], the latter
    whether or not [tcgetattr] had succeeded. *)
Theorem terminal_and_handle_are_paired
  (opts : list getopt) (ins : list input) (s : state) :
  main opts ins = Some s ->
  count is_slabinfo_new (trace s) <= 1 /\
  count is_unref (trace s) <= count is_slabinfo_new (trace s) /\
  count is_initscr (trace s) <= 1 /\
  count is_endwin (trace s) <= count is_initscr (trace s) /\
  count is_tcgetattr (trace s) <= count is_initscr (trace s) /\
  count is_tcsetattr (trace s) <= count is_tcgetattr (trace s) /\
  (count is_unref (trace s) = 1 ->
   exited s = true /\
   count is_endwin (trace s) = count is_initscr (trace s) /\
   count is_tcsetattr (trace s) = count is_tcgetattr (trace s)) /\
  (in_cycle (at_pc s) = true -> handlers s = negb (Run_once s)).
Proof.
  intros Hmain. pose proof (main_lifecycle_inv _ _ _ Hmain) as H.
  unfold lifecycle_inv, exited in *.
  destruct (at_pc s); cbn in *;
    repeat match goal with
           | H : _ /\ _ |- _ => destruct H
           end;
    destruct (Run_once s), (is_tty s); cbn in *;
    repeat split; intros; try lia; try congruence; auto; try tauto.
Qed.

Lemma terminal_and_handle_are_paired_witness :
  count is_slabinfo_new (trace sample_after_interrupt) <= 1 /\
  count is_unref (trace sample_after_interrupt)
  <= count is_slabinfo_new (trace sample_after_interrupt) /\
  count is_initscr (trace sample_after_interrupt) <= 1 /\
  count is_endwin (trace sample_after_interrupt)
  <= count is_initscr (trace sample_after_interrupt) /\
  count is_tcgetattr (trace sample_after_interrupt)
  <= count is_initscr (trace sample_after_interrupt) /\
  count is_tcsetattr (trace sample_after_interrupt)
  <= count is_tcgetattr (trace sample_after_interrupt) /\
  (count is_unref (trace sample_after_interrupt) = 1 ->
   exited sample_after_interrupt = true /\
   count is_endwin (trace sample_after_interrupt)
   = count is_initscr (trace sample_after_interrupt) /\
   count is_tcsetattr (trace sample_after_interrupt)
   = count is_tcgetattr (trace sample_after_interrupt)) /\
  (in_cycle (at_pc sample_after_interrupt) = true ->
   handlers sample_after_interrupt = negb (Run_once sample_after_interrupt)).
Proof.
  apply (terminal_and_handle_are_paired []
           (sample_interactive ++ repeat In_tau 5
            ++ In_SIGINT :: sample_interrupted_wait)).
  vm_compute. reflexivity.
Defined.

Lemma step_status_inv (s : state) (i : input) (s' : state) :
  status_inv s -> step s i = Some s' -> status_inv s'.
Proof.
  unfold status_inv. intros Hinv H.
  step_cases H; pc_rewrite Hinv;
    try (destruct Hinv as [[Hrc Hc] | [Hrc Hc]]);
    try (destruct Hinv as [Hrc Hc]);
    try rewrite Hrc; count_events; unfold EXIT_SUCCESS, EXIT_FAILURE in *;
    try first [ left; split; [congruence | lia]
              | right; split; [congruence | lia]
              | split; [congruence | lia] ].
Qed.

Lemma parse_opts_status (opts : list getopt) : forall s,
  at_pc s = At_new -> status_inv s -> status_inv (parse_opts opts s).
Proof.
  induction opts as [|o rest IH]; intros s Hpc Hs; cbn [parse_opts];
    [exact Hs|].
  assert (Ho : status_inv (parse_opt o s) /\
               (exited (parse_opt o s) = false -> at_pc (parse_opt o s) = At_new)).
  { unfold status_inv, exited in *. rewrite Hpc in Hs. destruct Hs as [Hrc Hc].
    destruct o as [[d|] | optarg | | | | ]; cbn; try destruct (d <? 1); cbn;
      rewrite ?Hpc; count_events; unfold EXIT_SUCCESS, EXIT_FAILURE in *;
      (split; [|congruence]);
      first [ left; split; [congruence | lia]
            | right; split; [congruence | lia]
            | split; [congruence | lia] ]. }
  destruct Ho as [Ho Hnew].
  destruct (exited (parse_opt o s)) eqn:E; [exact Ho|]. now apply IH; auto.
Qed.

(** The exit status of the process is 0 or 1, and it is 1 exactly when
    a failure was reported: an [xerrx], the usage text on stderr, or the
    [xwarn] of a failed fetch or sort.  A failed [tcgetattr] in the setup
    is only warned about and leaves the status alone. *)
Theorem exit_status_reports_failure
  (opts : list getopt) (ins : list input) (s : state) (st : Z) :
  main opts ins = Some s -> at_pc s = Exited st ->
  (st = EXIT_SUCCESS \/ st = EXIT_FAILURE) /\
  (st = EXIT_FAILURE <-> 0 < count is_failure (trace s)) /\
  (st = EXIT_SUCCESS <-> count is_failure (trace s) = 0).
Proof.
  intros Hmain Hpc.
  assert (Hinv : status_inv s).
  { apply (run_invariant status_inv step_status_inv ins (start opts) s);
      [|exact Hmain].
    apply parse_opts_status; [reflexivity|]. now split. }
  unfold status_inv in Hinv. rewrite Hpc in Hinv.
  unfold EXIT_SUCCESS, EXIT_FAILURE in *.
  destruct Hinv as [[-> Hc] | [-> Hc]]; repeat split; intros; auto; lia.
Qed.

Lemma exit_status_reports_failure_witness :
  (EXIT_SUCCESS = EXIT_SUCCESS \/ EXIT_SUCCESS = EXIT_FAILURE) /\
  (EXIT_SUCCESS = EXIT_FAILURE
   <-> 0 < count is_failure (trace sample_after_interrupt)) /\
  (EXIT_SUCCESS = EXIT_SUCCESS
   <-> count is_failure (trace sample_after_interrupt) = 0).
Proof.
  apply (exit_status_reports_failure []
           (sample_interactive ++ repeat In_tau 5
            ++ In_SIGINT :: sample_interrupted_wait)
           sample_after_interrupt EXIT_SUCCESS);
    vm_compute; reflexivity.
Defined.

Lemma printed_to_app (out : sink) (a b : list event) :
  printed_to out (a ++ b) <-> printed_to out a /\ printed_to out b.
Proof. unfold printed_to. apply Forall_app. Qed.

Lemma step_sink_inv (s : state) (i : input) (s' : state) :
  sink_inv s -> step s i = Some s' -> sink_inv s'.
Proof.
  unfold sink_inv. intros Hinv H.
  step_cases H;
    repeat match goal with
           | H : Run_once _ = _ |- _ => rewrite H in *
           end;
    pc_rewrite Hinv; cbn in Hinv;
    try exact Hinv;
    try (destruct (Run_once s) eqn:Ero; try discriminate);
    try (destruct Hinv as (Hpc & Hp & Hc); try discriminate Hpc);
    rewrite ?printed_to_app; count_events; rewrite ?Hc;
    unfold printed_to; repeat split; auto; repeat constructor.
Qed.

Lemma start_sink_inv (opts : list getopt) : sink_inv (start opts).
Proof.
  assert (Hp : forall out, printed_to out (trace (start opts))).
  { intros out. destruct (parse_opts_trace opts initial) as (es & Hes & Hall).
    unfold start. rewrite Hes. cbn [trace initial app]. unfold printed_to.
    clear - Hall. induction es as [|e es IH]; cbn in *; constructor.
    - apply andb_true_iff in Hall. now destruct e.
    - apply IH. now apply andb_true_iff in Hall. }
  unfold sink_inv. destruct (Run_once (start opts)); [|auto].
  split; [|split]; auto.
  - destruct (start_pc opts) as [E | [st E]]; now rewrite E.
  - apply start_trace_count_zero. now destruct e.
Qed.

(** In one-shot mode every line is written with [printf] to the standard
    output and the program never calls curses, never touches the
    terminal attributes, installs no handler and never waits for the
    keyboard; in interactive mode every line is written with [printw]
    to the screen. *)
Theorem output_goes_to_one_sink
  (opts : list getopt) (ins : list input) (s : state) :
  main opts ins = Some s ->
  (Run_once s = true ->
   printed_to Stdout (trace s) /\ count is_terminal_call (trace s) = 0) /\
  (Run_once s = false -> printed_to Screen (trace s)).
Proof.
  intros Hmain.
  assert (Hinv : sink_inv s)
    by (apply (run_invariant sink_inv step_sink_inv ins (start opts) s);
        [apply start_sink_inv | exact Hmain]).
  unfold sink_inv in Hinv.
  destruct (Run_once s); split; intros; try discriminate; auto.
  now destruct Hinv as (_ & Hp & Hc).
Qed.

Lemma output_goes_to_one_sink_witness :
  (Run_once sample_after_interrupt = true ->
   printed_to Stdout (trace sample_after_interrupt) /\
   count is_terminal_call (trace sample_after_interrupt) = 0) /\
  (Run_once sample_after_interrupt = false ->
   printed_to Screen (trace sample_after_interrupt)).
Proof.
  apply (output_goes_to_one_sink []
           (sample_interactive ++ repeat In_tau 5
            ++ In_SIGINT :: sample_interrupted_wait)).
  vm_compute. reflexivity.
Defined.

(** ** One interactive cycle *)

Lemma screen_rows_firstn (a : list slabnode_chain) (k : nat) : forall i : nat,
  (i + k <= List.length a)%nat ->
  screen_rows a (Z.of_nat i) k
  = map (details_line false) (firstn k (skipn i a)).
Proof.
  induction k as [|k IH]; intros i H; [reflexivity|].
  cbn [screen_rows]. rewrite Nat2Z.id.
  replace (Z.of_nat i + 1) with (Z.of_nat (S i)) by lia.
  rewrite IH by lia.
  assert (Hs : skipn i a = nth i a null_chain :: skipn (S i) a).
  { clear - H. revert i H. induction a as [|x a IHa]; intros i H.
    - cbn in H. lia.
    - destruct i as [|i]; [reflexivity|]. cbn [skipn nth].
      apply IHa. cbn in H. lia. }
  rewrite Hs. reflexivity.
Qed.

(** The interactive row loop, event by event. *)
Lemma rows_loop_screen (k : nat) : forall (s : state) (i : Z),
  at_pc s = At_rows i -> Run_once s = false -> 0 <= i ->
  i + Z.of_nat k = Z.min (Rows (geom s) - 8) (nr_slabs s) ->
  exists s',
    run s (repeat In_tau (S k)) = Some s' /\
    at_pc s' = At_select /\
    trace s' = trace s ++ screen_rows (v s) i k ++ [Ev_refresh] /\
    tv_sec s' = Delay s /\ Delay s' = Delay s /\ geom s' = geom s /\
    old_rows s' = old_rows s /\ Sort_item s' = Sort_item s /\
    Run_once s' = false.
Proof.
  induction k as [|k IH]; intros s i Hpc Ho Hi Hk.
  - eexists. cbn [repeat run]. unfold step. rewrite Hpc.
    replace ((i <? Rows (geom s) - 8) && (i <? nr_slabs s)) with false.
    + split; [reflexivity|]. cbn. auto 10.
    + symmetry. apply andb_false_iff.
      destruct (Z.ltb_spec i (Rows (geom s) - 8)); [|now left].
      right. apply Z.ltb_ge. lia.
  - set (s1 := goto (At_rows (i + 1)) (print_details (v_at s i) s)).
    destruct (IH s1 (i + 1))
      as (s' & Hrun & Hpc' & Htr & Htv & Hd & Hg & Hor & Hsi & Hro);
      [reflexivity | exact Ho | lia | cbn; lia |].
    exists s'. split.
    + change (repeat In_tau (S (S k))) with (In_tau :: repeat In_tau (S k)).
      cbn [run]. unfold step at 1. rewrite Hpc.
      replace ((i <? Rows (geom s) - 8) && (i <? nr_slabs s)) with true.
      * exact Hrun.
      * symmetry. apply andb_true_iff. split; apply Z.ltb_lt; lia.
    + split; [exact Hpc'|]. split; [|auto 10].
      rewrite Htr. cbn. rewrite Ho, <- app_assoc. reflexivity.
Qed.

Lemma step_render_interactive (s : state) (r : Z) (st : slabs_stats) :
  at_pc s = At_render -> Run_once s = false -> 0 <= r ->
  exists s',
    step s (In_slabs_getchain r st) = Some s' /\
    at_pc s' = At_rows 0 /\
    trace s' = trace s
               ++ (if old_rows s =? Rows (geom s) then []
                   else [Ev_resizeterm (Rows (geom s)) (Cols (geom s))])
               ++ [Ev_move 0 0; Ev_slabs_getchain]
               ++ summary_lines false st ++ header_events /\
    old_rows s' = Rows (geom s) /\ Delay s' = Delay s /\ geom s' = geom s /\
    Sort_item s' = Sort_item s /\ Run_once s' = false /\
    nr_slabs s' = nr_slabs s /\ v s' = v s.
Proof.
  intros Hpc Ho Hr. eexists. unfold step. rewrite Hpc.
  split; [reflexivity|].
  apply Z.ltb_ge in Hr.
  unfold render_top, print_summary, print_headings, header_events.
  rewrite Ho. cbn. rewrite Hr.
  destruct (Z.eqb_spec (old_rows s) (Rows (geom s))) as [E|E];
    cbn; rewrite ?Ho, ?Hr; unfold exited; cbn; rewrite Hpc; cbn;
    rewrite <- ?app_assoc; cbn; rewrite <- ?app_assoc; auto 12.
Qed.

(** From the top of the loop body to the wait, when the fetch, the sort
    and the summary succeed. *)
Lemma cycle_frame (s : state) (nr : Z) (a : list slabnode_chain)
  (r : Z) (st : slabs_stats) :
  at_pc s = At_fill -> Run_once s = false -> 8 <= Rows (geom s) ->
  0 <= nr -> 0 <= r ->
  (Z.to_nat (Z.min (Rows (geom s) - 8) nr) <= List.length a)%nat ->
  exists s',
    run s (cycle_inputs nr a r st (Z.to_nat (Z.min (Rows (geom s) - 8) nr)))
    = Some s' /\
    at_pc s' = At_select /\
    trace s' = trace s
               ++ frame s nr a st (Z.to_nat (Z.min (Rows (geom s) - 8) nr)) /\
    tv_sec s' = Delay s /\ Delay s' = Delay s /\ geom s' = geom s /\
    old_rows s' = Rows (geom s) /\ Sort_item s' = Sort_item s /\
    Run_once s' = false.
Proof.
  intros Hpc Ho Hrows Hnr Hr Hlen.
  set (n := Z.to_nat (Z.min (Rows (geom s) - 8) nr)) in *.
  unfold cycle_inputs.
  change ([In_chains_fill nr; In_chains_sort (Some a); In_slabs_getchain r st]
          ++ repeat In_tau (S n))
    with (In_chains_fill nr :: In_chains_sort (Some a)
          :: In_slabs_getchain r st :: repeat In_tau (S n)).
  cbn [run].
  destruct (step_fill s nr Hpc) as [Hfill _]. rewrite (Hfill Hnr).
  set (s1 := goto At_sort _).
  destruct (step_sort s1 eq_refl) as [Hsort _]. rewrite Hsort.
  set (s2 := goto At_render _).
  destruct (step_render_interactive s2 r st eq_refl Ho Hr)
    as (s3 & Hs3 & Hpc3 & Htr3 & Hor3 & Hd3 & Hg3 & Hsi3 & Hro3 & Hn3 & Hv3).
  rewrite Hs3.
  destruct (rows_loop_screen n s3 0 Hpc3 Hro3 (Z.le_refl 0))
    as (s' & Hrun & Hpc' & Htr & Htv & Hd & Hg & Hor & Hsi & Hro).
  { rewrite Hg3, Hn3. cbn. subst n. lia. }
  exists s'. split; [exact Hrun|]. split; [exact Hpc'|].
  split.
  - rewrite Htr, Htr3, Hv3. cbn [v s2 set_v goto]. 
    change 0 with (Z.of_nat 0). rewrite screen_rows_firstn by (cbn; lia).
    cbn [skipn]. unfold frame. cbn. rewrite <- !app_assoc. reflexivity.
  - rewrite Htv, Hd, Hg, Hor, Hsi, Hd3, Hg3, Hor3, Hsi3. cbn. auto 10.
Qed.






(** A key that is not [q] or [Q], read while no interrupt is pending,
    takes effect in the very next cycle: the program goes straight from
    the [read] to a new fetch, sorts it by [set_sort_item c] and draws
    the frame from that order. *)
Theorem keystroke_resorts_next_frame
  (opts : list getopt) (ins : list input) (s : state) (c : Z)
  (nr : Z) (a : list slabnode_chain) (r : Z) (st : slabs_stats) :
  main opts ins = Some s -> at_pc s = At_read ->
  c <> chr "Q" -> c <> chr "q" -> Delay s <> 0 ->
  0 <= nr -> 0 <= r ->
  (Z.to_nat (Z.min (Rows (geom s) - 8) nr) <= List.length a)%nat ->
  exists s',
    run s ([In_read 1 c; In_tau]
           ++ cycle_inputs nr a r st (Z.to_nat (Z.min (Rows (geom s) - 8) nr)))
    = Some s' /\
    at_pc s' = At_select /\
    trace s' = trace s ++ [Ev_read]
               ++ frame (set_Sort_item (set_sort_item c) s) nr a st
                    (Z.to_nat (Z.min (Rows (geom s) - 8) nr)) /\
    In (Ev_chains_sort nr (set_sort_item c)) (trace s') /\
    Sort_item s' = set_sort_item c.
Proof.
  intros Hmain Hpc HQ Hq Hd Hnr Hr Hlen.
  pose proof (main_loop_inv _ _ _ Hmain) as (Hg & _ & Hi).
  rewrite Hpc in Hg, Hi. specialize (Hi eq_refl). specialize (Hg eq_refl Hi).
  destruct (step_read s 1 c Hpc) as [_ Hkey].
  change ([In_read 1 c; In_tau] ++ ?l) with (In_read 1 c :: In_tau :: l).
  cbn [run]. rewrite Hkey by tauto.
  set (s1 := goto At_while _).
  assert (Hw : step s1 In_tau = Some (goto At_fill s1)).
  { unfold step. cbn. apply Z.eqb_neq in Hd. now rewrite Hd. }
  rewrite Hw.
  assert (H8 : 8 <= Rows (geom (goto At_fill s1))) by (cbn; lia).
  destruct (cycle_frame (goto At_fill s1) nr a r st eq_refl Hi H8 Hnr Hr Hlen)
    as (s' & Hrun & Hpc' & Htr & _ & _ & _ & _ & Hsi & _).
  exists s'. split; [exact Hrun|]. split; [exact Hpc'|].
  assert (Htr' : trace s' = trace s ++ [Ev_read]
                 ++ frame (set_Sort_item (set_sort_item c) s) nr a st
                      (Z.to_nat (Z.min (Rows (geom s) - 8) nr))).
  { rewrite Htr. cbn [trace goto s1 set_Sort_item emit].
    rewrite <- app_assoc. reflexivity. }
  split; [exact Htr'|]. split; [|exact Hsi].
  rewrite Htr'. apply in_or_app. right. apply in_or_app. right.
  unfold frame. cbn. auto.
Qed.

Lemma keystroke_resorts_next_frame_witness :
  exists s',
    run sample_at_read
      ([In_read 1 (chr "c"); In_tau]
       ++ cycle_inputs 5 (repeat sample_chain 5) 0 sample_stats
            (Z.to_nat (Z.min (Rows (geom sample_at_read) - 8) 5)))
    = Some s' /\
    at_pc s' = At_select /\
    trace s' = trace sample_at_read ++ [Ev_read]
               ++ frame (set_Sort_item (set_sort_item (chr "c")) sample_at_read)
                    5 (repeat sample_chain 5) sample_stats
                    (Z.to_nat (Z.min (Rows (geom sample_at_read) - 8) 5)) /\
    In (Ev_chains_sort 5 (set_sort_item (chr "c"))) (trace s') /\
    Sort_item s' = set_sort_item (chr "c").
Proof.
  apply (keystroke_resorts_next_frame [Opt_s "n"] sample_until_read).
  - vm_compute. reflexivity.
  - reflexivity.
  - vm_compute. discriminate.
  - vm_compute. discriminate.
  - vm_compute. discriminate.
  - lia.
  - lia.
  - vm_compute. lia.
Defined.








(** ** The sort keys, taken together *)

(** Every one of the ten fields has its letter among the announced sort
    criteria, and only that letter: two recognized characters select the
    same field exactly when they are the same letter up to case. *)
Theorem every_field_has_one_sort_key (f : slabnode_item) :
  exists k,
    In k valid_sort_criteria /\ set_sort_item k = f /\
    forall c, recognized c = true -> set_sort_item c = f -> tolower c = k.
Proof.
  assert (Hall : forall k, In k valid_sort_criteria -> set_sort_item k = f ->
                 forall c, recognized c = true -> set_sort_item c = f ->
                           tolower c = k).
  { intros k Hk Hf c Hc Hcf. unfold recognized in Hc.
    apply existsb_exists in Hc. destruct Hc as (x & Hin & Hx).
    apply Z.eqb_eq in Hx. subst x. rewrite <- Hcf in Hf. clear Hcf.
    cbn in Hin, Hk.
    repeat (destruct Hin as [<- | Hin];
            [repeat (destruct Hk as [<- | Hk];
                     [first [reflexivity | discriminate Hf]|]);
             contradiction|]).
    contradiction. }
  destruct f;
    [ exists (chr "o") | exists (chr "a") | exists (chr "u")
    | exists (chr "s") | exists (chr "l") | exists (chr "b")
    | exists (chr "c") | exists (chr "n") | exists (chr "p")
    | exists (chr "v") ];
    (split; [cbn; tauto|]); (split; [reflexivity|]);
    apply Hall; (cbn; tauto) || reflexivity.
Qed.

(** ** The pace of the loop *)

Lemma step_pace_inv (s : state) (i : input) (s' : state) :
  pace_inv s -> step s i = Some s' -> pace_inv s'.
Proof.
  unfold pace_inv. intros Hinv H.
  step_cases H; pc_rewrite Hinv; cbn in Hinv;
    count_events; lia.
Qed.

Lemma main_pace_inv (opts : list getopt) (ins : list input) (s : state) :
  main opts ins = Some s -> pace_inv s.
Proof.
  apply (run_invariant pace_inv step_pace_inv).
  assert (Hz : forall p, (forall e, parse_event e = true -> p e = false) ->
                         count p (trace (start opts)) = 0)
    by (intros p; apply start_trace_count_zero).
  assert (HF : count is_fetch (trace (start opts)) = 0)
    by (apply Hz; now destruct e).
  assert (HS : count is_sort (trace (start opts)) = 0)
    by (apply Hz; now destruct e).
  assert (HR : count is_refresh (trace (start opts)) = 0)
    by (apply Hz; now destruct e).
  assert (HW : count is_wait (trace (start opts)) = 0)
    by (apply Hz; now destruct e).
  assert (HK : count is_keyread (trace (start opts)) = 0)
    by (apply Hz; now destruct e).
  unfold pace_inv. rewrite HF, HS, HR, HW, HK.
  destruct (start_pc opts) as [E | [st E]]; rewrite E; lia.
Qed.

(** The calls of the loop stay in step.  At every point of every run the
    [select] calls, the frames, the sorts and the fetches made so far
    number select <= refresh <= sort <= fetch <= select + 1: a wait
    comes after its own frame, a frame after its own sort, a sort after
    its own fetch, and a further fetch is made only once a [select] call
    has returned, be it with input, by time-out or with an error.  The
    keyboard is read at most once per [select]. *)
Theorem fetches_alternate_with_waits
  (opts : list getopt) (ins : list input) (s : state) :
  main opts ins = Some s ->
  count is_wait (trace s) <= count is_refresh (trace s) /\
  count is_refresh (trace s) <= count is_sort (trace s) /\
  count is_sort (trace s) <= count is_fetch (trace s) /\
  count is_fetch (trace s) <= count is_wait (trace s) + 1 /\
  count is_keyread (trace s) <= count is_wait (trace s) /\
  (at_pc s = At_fill -> count is_fetch (trace s) = count is_wait (trace s)).
Proof.
  intros Hmain. pose proof (main_pace_inv _ _ _ Hmain) as H.
  unfold pace_inv in H.
  destruct (at_pc s); repeat split; try discriminate; lia.
Qed.

Lemma fetches_alternate_with_waits_witness :
  count is_wait (trace sample_after_interrupt)
  <= count is_refresh (trace sample_after_interrupt) /\
  count is_refresh (trace sample_after_interrupt)
  <= count is_sort (trace sample_after_interrupt) /\
  count is_sort (trace sample_after_interrupt)
  <= count is_fetch (trace sample_after_interrupt) /\
  count is_fetch (trace sample_after_interrupt)
  <= count is_wait (trace sample_after_interrupt) + 1 /\
  count is_keyread (trace sample_after_interrupt)
  <= count is_wait (trace sample_after_interrupt) /\
  (at_pc sample_after_interrupt = At_fill ->
   count is_fetch (trace sample_after_interrupt)
   = count is_wait (trace sample_after_interrupt)).
Proof.
  apply (fetches_alternate_with_waits []
           (sample_interactive ++ repeat In_tau 5
            ++ In_SIGINT :: sample_interrupted_wait)).
  vm_compute. reflexivity.
Defined.

(** ** What [%f] receives when no total is 0 *)

Lemma digits2_pos_upper (m : positive) (k : Z) :
  Zpos m < 2 ^ k -> Zpos (digits2_pos m) <= k.
Proof.
  intros H. destruct (digits2_pos_bounds m) as [Hl _].
  destruct (Z.le_gt_cases (Zpos (digits2_pos m)) k) as [Hle|Hgt]; [exact Hle|].
  exfalso.
  assert (2 ^ k <= 2 ^ (Zpos (digits2_pos m) - 1))
    by (apply Z.pow_le_mono_r; lia).
  lia.
Qed.

(** A right shift by fewer places than the mantissa has digits takes
    that many digits off the mantissa and adds them to the exponent. *)
Lemma shr_exact_digits (m : positive) (e n : Z) (l : location) :
  n < Zpos (digits2_pos m) ->
  exists m' e',
    shr_m (fst (shr (shr_record_of_loc (Zpos m) l) e n)) = Zpos m' /\
    snd (shr (shr_record_of_loc (Zpos m) l) e n) = e' /\
    Zpos (digits2_pos m') + e' = Zpos (digits2_pos m) + e.
Proof.
  intros Hn.
  assert (Hm : shr_m (shr_record_of_loc (Zpos m) l) = Zpos m)
    by (destruct l as [|[| |]]; reflexivity).
  destruct n as [|p|p]; cbn [shr fst snd].
  - exists m, e. rewrite Hm. repeat split; lia.
  - destruct (digits2_pos_bounds m) as [Hl Hu].
    set (d := Zpos (digits2_pos m)) in *.
    assert (Hq : 2 ^ (d - 1 - Zpos p) <= Zpos m / 2 ^ Zpos p).
    { apply Z.div_le_lower_bound; [lia|].
      rewrite <- Z.pow_add_r by lia.
      replace (Zpos p + (d - 1 - Zpos p)) with (d - 1) by lia.
      exact Hl. }
    assert (Hq' : Zpos m / 2 ^ Zpos p < 2 ^ (d - Zpos p)).
    { apply Z.div_lt_upper_bound; [lia|].
      rewrite <- Z.pow_add_r by lia.
      replace (Zpos p + (d - Zpos p)) with d by lia. exact Hu. }
    assert (Hpos : 0 < Zpos m / 2 ^ Zpos p).
    { assert (0 < 2 ^ (d - 1 - Zpos p)) by (apply Z.pow_pos_nonneg; lia).
      lia. }
    rewrite iter_shr_1_m by (rewrite Hm; lia). rewrite Hm.
    destruct (Zpos m / 2 ^ Zpos p) as [|m'|m'] eqn:E; try lia.
    exists m', (e + Zpos p). split; [reflexivity|]. split; [reflexivity|].
    apply digits2_pos_lower in Hq. apply digits2_pos_upper in Hq'. lia.
  - exists m, e. rewrite Hm. repeat split; lia.
Qed.

Lemma shr_fexp_exact_digits (m : positive) (e : Z) (l : location) :
  emin 53 1024 < Zpos (digits2_pos m) + e ->
  exists r m' e',
    shr_fexp 53 1024 (Zpos m) e l = (r, e') /\
    shr_m r = Zpos m' /\
    Zpos (digits2_pos m') + e' = Zpos (digits2_pos m) + e.
Proof.
  intros H. unfold shr_fexp. cbn [Zdigits2].
  destruct (shr_exact_digits m e
              (fexp 53 1024 (Zpos (digits2_pos m) + e) - e) l)
    as (m' & e' & Hm & He & Hd).
  { unfold fexp. lia. }
  destruct (shr (shr_record_of_loc (Zpos m) l) e
              (fexp 53 1024 (Zpos (digits2_pos m) + e) - e)) as [r e''].
  cbn [fst snd] in Hm, He. subst e''.
  exists r, m', e'. repeat split; [exact Hm | lia].
Qed.

Lemma round_nearest_even_digits (m : positive) (l : location) :
  exists m', round_nearest_even (Zpos m) l = Zpos m' /\
             Zpos (digits2_pos m) <= Zpos (digits2_pos m')
             <= Zpos (digits2_pos m) + 1.
Proof.
  assert (Hs : Zpos (digits2_pos m) <= Zpos (digits2_pos (m + 1))
               <= Zpos (digits2_pos m) + 1).
  { split; [apply digits2_pos_mono; lia|].
    apply digits2_pos_upper. destruct (digits2_pos_bounds m) as [_ Hu].
    rewrite Z.pow_add_r, Z.pow_1_r by lia. lia. }
  destruct l as [|[| |]]; cbn [round_nearest_even];
    try (exists m; split; [reflexivity | lia]).
  - destruct (Z.even (Zpos m)).
    + exists m. split; [reflexivity | lia].
    + exists (m + 1)%positive. split; [reflexivity | exact Hs].
  - exists (m + 1)%positive. split; [reflexivity | exact Hs].
Qed.

(** Rounding a positive mantissa whose magnitude is between the
    underflow threshold and 2^971 gives a finite number, of a magnitude
    at most one binary place higher. *)
Lemma binary_round_aux_within (sx : bool) (m : positive) (e : Z) (l : location) :
  emin 53 1024 < Zpos (digits2_pos m) + e ->
  Zpos (digits2_pos m) + e <= 971 ->
  exists m' e',
    binary_round_aux 53 1024 sx (Zpos m) e l = S754_finite sx m' e' /\
    Zpos (digits2_pos m) + e <= Zpos (digits2_pos m') + e'
    <= Zpos (digits2_pos m) + e + 1.
Proof.
  intros H Hu. unfold binary_round_aux.
  destruct (shr_fexp_exact_digits m e l H) as (r1 & m1 & e1 & -> & Hm1 & Hd1).
  rewrite Hm1.
  destruct (round_nearest_even_digits m1 (loc_of_shr_record r1))
    as (m2 & -> & Hle).
  assert (Hd2 : emin 53 1024 < Zpos (digits2_pos m2) + e1) by lia.
  destruct (shr_fexp_exact_digits m2 e1 loc_Exact Hd2)
    as (r3 & m3 & e3 & -> & Hm3 & Hd3).
  rewrite Hm3.
  assert (He3 : e3 <= 1024 - 53) by lia.
  apply Z.leb_le in He3. rewrite He3.
  exists m3, e3. split; [reflexivity | lia].
Qed.

Lemma digits2_pos_mul (a b : positive) :
  Zpos (digits2_pos a) + Zpos (digits2_pos b) - 1
  <= Zpos (digits2_pos (a * b))
  <= Zpos (digits2_pos a) + Zpos (digits2_pos b).
Proof.
  destruct (digits2_pos_bounds a) as [Hla Hua].
  destruct (digits2_pos_bounds b) as [Hlb Hub].
  set (da := Zpos (digits2_pos a)) in *. set (db := Zpos (digits2_pos b)) in *.
  assert (Hda : 1 <= da) by (subst da; lia).
  assert (Hdb : 1 <= db) by (subst db; lia).
  split.
  - assert (da + db - 2 < Zpos (digits2_pos (a * b))); [|lia].
    apply digits2_pos_lower.
    replace (da + db - 2) with ((da - 1) + (db - 1)) by lia.
    rewrite Z.pow_add_r, Pos2Z.inj_mul by lia.
    assert (0 < 2 ^ (da - 1)) by (apply Z.pow_pos_nonneg; lia).
    assert (0 < 2 ^ (db - 1)) by (apply Z.pow_pos_nonneg; lia).
    nia.
  - apply digits2_pos_upper.
    rewrite Z.pow_add_r, Pos2Z.inj_mul by lia.
    assert (0 < 2 ^ da) by (apply Z.pow_pos_nonneg; lia).
    assert (0 < 2 ^ db) by (apply Z.pow_pos_nonneg; lia).
    clearbody da db. nia.
Qed.

Lemma digits2_pos_shift (p d : positive) :
  Zpos (digits2_pos (Pos.iter xO p d)) = Zpos (digits2_pos p) + Zpos d.
Proof.
  destruct (digits2_pos_bounds p) as [Hl Hu].
  pose proof (iter_xO_pow p d) as Hi.
  set (dp := Zpos (digits2_pos p)) in *.
  assert (Hdp : 1 <= dp) by (subst dp; lia).
  assert (H2 : 0 < 2 ^ Zpos d) by (apply Z.pow_pos_nonneg; lia).
  assert (dp + Zpos d - 1 < Zpos (digits2_pos (Pos.iter xO p d))).
  { apply digits2_pos_lower. rewrite Hi.
    replace (dp + Zpos d - 1) with ((dp - 1) + Zpos d) by lia.
    rewrite Z.pow_add_r by lia. nia. }
  assert (Zpos (digits2_pos (Pos.iter xO p d)) <= dp + Zpos d).
  { apply digits2_pos_upper. rewrite Hi, Z.pow_add_r by lia.
    clearbody dp. nia. }
  lia.
Qed.

Lemma binary_normalize_within (p : positive) :
  Zpos (digits2_pos p) <= 971 ->
  finite_within (Zpos (digits2_pos p)) (Zpos (digits2_pos p) + 1)
    (binary_normalize 53 1024 (Zpos p) 0 false).
Proof.
  intros Hp. cbn [binary_normalize]. unfold binary_round, shl_align.
  unfold finite_within.
  destruct (fexp 53 1024 (Zpos (digits2_pos p) + 0) - 0) as [|d|d] eqn:E.
  - destruct (binary_round_aux_within false p 0 loc_Exact)
      as (m' & e' & -> & H); [unfold emin; lia | lia |].
    exists false, m', e'. split; [reflexivity | lia].
  - destruct (binary_round_aux_within false p 0 loc_Exact)
      as (m' & e' & -> & H); [unfold emin; lia | lia |].
    exists false, m', e'. split; [reflexivity | lia].
  - pose proof (digits2_pos_shift p d) as Hs.
    assert (Hd : fexp 53 1024 (Zpos (digits2_pos p) + 0) = Zneg d) by lia.
    rewrite Hd.
    destruct (binary_round_aux_within false (Pos.iter xO p d) (Zneg d) loc_Exact)
      as (m' & e' & -> & H); [unfold emin; lia | lia |].
    exists false, m', e'. split; [reflexivity | lia].
Qed.

Lemma SFopp_within (lo hi : Z) (x : spec_float) :
  finite_within lo hi x -> finite_within lo hi (SFopp x).
Proof.
  intros (s & m & e & -> & H). exists (negb s), m, e. now split.
Qed.

Lemma of_uint63_within (z : Z) :
  0 < z < 2 ^ 32 ->
  finite_within 1 33 (Prim2SF (PrimFloat.of_uint63 (Uint63.of_Z z))).
Proof.
  intros Hz.
  assert (H32 : 2 ^ 32 < wB) by (vm_compute; reflexivity).
  rewrite FloatAxioms.of_uint63_spec.
  rewrite Uint63.of_Z_spec, Z.mod_small by lia.
  destruct z as [|p|p]; try lia.
  assert (Hd : Zpos (digits2_pos p) <= 32) by (apply digits2_pos_upper; lia).
  destruct (binary_normalize_within p) as (s & m & e & Heq & H); [lia|].
  exists s, m, e. split; [exact Heq | lia].
Qed.

(** A nonzero [int] converts to a finite [double] between 2^0 and
    2^33. *)
Lemma of_int_within (a : Z) :
  is_int a -> a <> 0 -> finite_within 1 33 (Prim2SF (of_int a)).
Proof.
  unfold is_int, of_int. intros Ha Hz.
  assert (H31 : 2 ^ 32 = 2 * 2 ^ 31) by reflexivity.
  destruct (Z.ltb_spec a 0) as [Hneg | Hpos].
  - rewrite FloatAxioms.opp_spec. apply SFopp_within, of_uint63_within. lia.
  - apply of_uint63_within. lia.
Qed.

Lemma mul_100_within (lo hi : Z) (y : spec_float) :
  emin 53 1024 < lo + 6 -> hi + 7 <= 971 ->
  finite_within lo hi y ->
  finite_within (lo + 6) (hi + 8) (SFmul 53 1024 SF_100 y).
Proof.
  intros Hlo Hhi (s & m & e & -> & H).
  unfold SF_100. cbn [SFmul xorb].
  pose proof (digits2_pos_mul 7036874417766400 m) as Hm.
  change (Zpos (digits2_pos 7036874417766400)) with 53 in Hm.
  destruct (binary_round_aux_within s (7036874417766400 * m) (-46 + e) loc_Exact)
    as (m' & e' & -> & H'); [lia | lia |].
  exists s, m', e'. split; [reflexivity | lia].
Qed.

(** The quotient of two finite numbers whose magnitudes are not too far
    apart is finite, its magnitude being the difference of theirs, up
    to two binary places. *)
Lemma SFdiv_within (lo1 hi1 lo2 hi2 : Z) (x y : spec_float) :
  finite_within lo1 hi1 x -> finite_within lo2 hi2 y ->
  emin 53 1024 + 53 < lo1 - hi2 -> hi1 - lo2 + 1 <= 971 ->
  finite_within (lo1 - hi2) (hi1 - lo2 + 2) (SFdiv 53 1024 x y).
Proof.
  intros (s1 & m1 & e1 & -> & H1) (s2 & m2 & e2 & -> & H2) Hlo Hhi.
  cbn [SFdiv]. unfold SFdiv_core_binary. cbv zeta. cbn [Zdigits2].
  destruct (digits2_pos_bounds m1) as [Hl1 Hu1].
  destruct (digits2_pos_bounds m2) as [Hl2 Hu2].
  set (d1 := Zpos (digits2_pos m1)) in *.
  set (d2 := Zpos (digits2_pos m2)) in *.
  assert (Hd1 : 1 <= d1) by (subst d1; lia).
  assert (Hd2 : 1 <= d2) by (subst d2; lia).
  clearbody d1 d2.
  set (e' := Z.min (fexp 53 1024 (d1 + e1 - (d2 + e2))) (e1 - e2)).
  assert (He' : e' <= e1 - e2 /\ e' <= d1 + e1 - (d2 + e2) - 53 /\
                (e' = e1 - e2 \/ e' = d1 + e1 - (d2 + e2) - 53)).
  { subst e'. unfold fexp, emin in *. lia. }
  clearbody e'.
  set (s := e1 - e2 - e').
  assert (Hs : 0 <= s /\ d2 + 53 <= d1 + s) by (subst s; lia).
  assert (Hse : s + e' = e1 - e2) by (subst s; lia).
  clearbody s.
  set (m' := match s with
             | 0 => Zpos m1
             | Zpos _ => Z.shiftl (Zpos m1) s
             | Zneg _ => 0
             end).
  assert (Hm' : m' = Zpos m1 * 2 ^ s).
  { subst m'. destruct s as [|p|p]; [cbn; lia| |lia].
    rewrite Z.shiftl_mul_pow2 by lia. reflexivity. }
  clearbody m'.
  assert (H2s : 0 < 2 ^ s) by (apply Z.pow_pos_nonneg; lia).
  assert (Hml : 2 ^ (d1 - 1 + s) <= m').
  { rewrite Hm', Z.pow_add_r by lia. nia. }
  assert (Hmu : m' < 2 ^ (d1 + s)).
  { rewrite Hm', Z.pow_add_r by lia. nia. }
  destruct (Z.div_eucl m' (Zpos m2)) as [q r] eqn:E.
  assert (Hq : q = m' / Zpos m2) by (unfold Z.div; now rewrite E).
  assert (Hql : 2 ^ (d1 - 1 + s - d2) <= q).
  { rewrite Hq.
    apply Z.le_trans with (m' / 2 ^ d2).
    - apply Z.div_le_lower_bound; [apply Z.pow_pos_nonneg; lia|].
      rewrite <- Z.pow_add_r by lia.
      replace (d2 + (d1 - 1 + s - d2)) with (d1 - 1 + s) by lia. exact Hml.
    - apply Z.div_le_compat_l; lia. }
  assert (Hqu : q < 2 ^ (d1 + s - d2 + 1)).
  { rewrite Hq. apply Z.div_lt_upper_bound; [lia|].
    apply Z.lt_le_trans with (1 := Hmu).
    assert (Hp : 2 ^ (d1 + s) = 2 ^ (d2 - 1) * 2 ^ (d1 + s - d2 + 1)).
    { rewrite <- Z.pow_add_r by lia. f_equal. lia. }
    rewrite Hp.
    apply Z.mul_le_mono_nonneg_r; [apply Z.pow_nonneg; lia | exact Hl2]. }
  assert (Hqpos : 0 < q).
  { assert (0 < 2 ^ (d1 - 1 + s - d2)) by (apply Z.pow_pos_nonneg; lia). lia. }
  destruct q as [|qp|qp]; try lia.
  apply digits2_pos_lower in Hql. apply digits2_pos_upper in Hqu.
  destruct (binary_round_aux_within (xorb s1 s2) qp e'
              (new_location (Zpos m2) r))
    as (mz & ez & -> & Hz); [unfold emin in *; lia | lia |].
  exists (xorb s1 s2), mz, ez. split; [reflexivity | lia].
Qed.

Lemma finite_converts_to_digits (x : float) :
  (exists s, Prim2SF x = S754_zero s) \/
  (exists s m e, Prim2SF x = S754_finite s m e) ->
  convert_f x = F_digits x.
Proof.
  intros H. unfold convert_f, PrimFloat.is_nan, PrimFloat.is_infinity.
  rewrite !FloatAxioms.eqb_spec, FloatAxioms.abs_spec.
  change (Prim2SF infinity) with (S754_infinity false).
  destruct H as [[s ->] | (s & m & e & ->)].
  - reflexivity.
  - unfold SFeqb. cbn [SFcompare SFabs].
    rewrite Z.compare_refl, Pos.compare_cont_refl.
    now destruct s.
Qed.

Lemma percent_finite (a t : Z) :
  is_int a -> is_int t -> t <> 0 ->
  convert_f (percent a t) = F_digits (percent a t).
Proof.
  intros Ha Ht Hz. apply finite_converts_to_digits.
  unfold percent. rewrite FloatAxioms.div_spec, FloatAxioms.mul_spec.
  change (Prim2SF 100%float) with SF_100.
  destruct (of_int_within t Ht Hz) as (s2 & m2 & e2 & E2 & H2).
  destruct (Z.eq_dec a 0) as [-> | Hnz].
  - left. change (Prim2SF (of_int 0)) with (S754_zero false).
    rewrite E2. now eexists.
  - right.
    pose proof (mul_100_within 1 33 _ ltac:(unfold emin; lia) ltac:(lia)
                  (of_int_within a Ha Hnz)) as Hm.
    assert (Hy : finite_within 1 33 (Prim2SF (of_int t)))
      by (exists s2, m2, e2; now split).
    destruct (SFdiv_within _ _ _ _ _ _ Hm Hy) as (s & m & e & E & _);
      [unfold emin; lia | lia |].
    now exists s, m, e.
Qed.

Lemma div_1024_finite (x : float) :
  (exists s, Prim2SF x = S754_zero s) \/ finite_within 1 33 (Prim2SF x) ->
  convert_f (PrimFloat.div x 1024%float)
  = F_digits (PrimFloat.div x 1024%float).
Proof.
  intros H. apply finite_converts_to_digits.
  rewrite FloatAxioms.div_spec.
  change (Prim2SF 1024%float) with SF_1024.
  destruct H as [[s ->] | Hx].
  - left. now eexists.
  - right.
    assert (Hy : finite_within 11 11 SF_1024).
    { unfold SF_1024. eexists _, _, _. split; [reflexivity|].
      vm_compute. split; discriminate. }
    destruct (SFdiv_within _ _ _ _ _ _ Hx Hy) as (s & m & e & E & _);
      [unfold emin; lia | lia |].
    now exists s, m, e.
Qed.

Lemma kib_finite (a : Z) :
  is_int a -> convert_f (kib a) = F_digits (kib a).
Proof.
  intros Ha. unfold kib. apply div_1024_finite.
  destruct (Z.eq_dec a 0) as [-> | Hnz].
  - left. now exists false.
  - right. now apply of_int_within.
Qed.

(** When none of the four totals is 0, every [double] that
    [print_summary] hands to a [%f] conversion (the four percentages and
    the five sizes in KiB) is a finite number, and so is the object size
    in KiB of a row of [print_details]: [printf] never has to print
    [inf] or [nan] for them. *)
Theorem nonzero_totals_print_finite_numbers
  (once : bool) (st : slabs_stats) (chain : slabnode_chain) :
  stats_are_int st ->
  stat_OBJS st <> 0 -> stat_SLABS st <> 0 -> stat_CACHES st <> 0 ->
  stat_TOTAL st <> 0 ->
  is_unsigned (my_OSIZE chain) ->
  forall (out : sink) (fmt : string) (args : list printf_arg) (x : float),
    In (Ev_print out fmt args)
       (summary_lines once st ++ [details_line once chain]) ->
    In (Arg_double x) args ->
    convert_f x = F_digits x.
Proof.
  intros Hint H1 H2 H3 H4 Hu out fmt args x Hin Hx.
  unfold stats_are_int in Hint.
  repeat match goal with
         | H : Forall _ (_ :: _) |- _ => inversion H; subst; clear H
         end.
  unfold summary_lines, details_line, PRINT_line in Hin. cbn [app] in Hin.
  repeat (destruct Hin as [Hin | Hin];
          [ inversion Hin; subst; clear Hin; cbn [In] in Hx;
            repeat (destruct Hx as [Hx | Hx];
                    [ first [ discriminate Hx
                            | inversion Hx; subst;
                              first [ now apply percent_finite
                                    | now apply kib_finite
                                    | idtac ] ]
                    | ]);
            try contradiction
          | ]);
    try contradiction.
  apply div_1024_finite. unfold of_unsigned.
  destruct (Z.eq_dec (my_OSIZE chain) 0) as [-> | Hnz].
  - left. now exists false.
  - right. apply of_uint63_within. unfold is_unsigned in Hu. lia.
Qed.

Lemma nonzero_totals_print_finite_numbers_witness :
  convert_f (percent 0 7) = F_digits (percent 0 7).
Proof.
  apply (nonzero_totals_print_finite_numbers false sample_stats_busy
           sample_chain)
    with (out := Screen) (fmt := fmt_pct)
         (args := [ Arg_str "Active / Total Slabs (% used)";
                    Arg_int 0; Arg_int 7; Arg_double (percent 0 7) ]).
  - unfold stats_are_int, is_int. cbn. repeat constructor; lia.
  - discriminate.
  - discriminate.
  - discriminate.
  - discriminate.
  - unfold is_unsigned. cbn. lia.
  - unfold summary_lines, PRINT_line. cbn. right. left. reflexivity.
  - cbn. right. right. right. left. reflexivity.
Defined.
